(** * Codex Mission Control: the control core of [gui/main.py]

    A shallow embedding of the request handlers of [gui/main.py] that carry
    state: the agent lifecycle ([control_agent]), the bounded audit log
    ([add_audit_log]), the task queue document ([create_task],
    [update_task]) and the log stream ([stream_logs]).

    Python values that reach a JSON file are modelled by [json]; a Python
    [dict] is an association list in insertion order, which is the order
    [json.dump] writes.  The process-wide globals and the harness directory
    form the [world]; a handler is a function from the world to a new world
    and either a response or the exception it raised.  [datetime.now] is an
    oracle of the world: every call consumes one reading of the clock. *)

From stdpp Require Import base option list strings pretty gmap sorting.

Set Warnings "-register-all".
Local Open Scope string_scope.
Local Open Scope list_scope.
Local Open Scope nat_scope.

(** ** JSON values *)

(** What [json.load] produces.  JSON numbers with a fraction are not
    represented: no handler inspects a number. *)
Inductive json : Type :=
| JNull
| JBool (b : bool)
| JInt (n : Z)
| JStr (s : string)
| JArr (items : list json)
| JObj (fields : list (string * json)).

(** [Dict[str, Any]] *)
Abbreviation dict := (list (string * json)).

(** ** Exceptions and the handler monad *)

Inductive exn : Type :=
| HTTPException (status_code : nat) (detail : string)
| AttributeError
| TypeError
| KeyError
| IndexError
| OSError.

Abbreviation result A := (exn + A)%type.

Abbreviation Ok a := (inr a).
Abbreviation Raise e := (inl e).

(** ** Python dictionary and sequence primitives *)

(** [d.get(k)] and [k in d] on a dict. *)
Fixpoint dict_lookup (k : string) (d : dict) : option json :=
  match d with
  | [] => None
  | (k', v) :: d' => if String.eqb k k' then Some v else dict_lookup k d'
  end.

Definition dict_get (k : string) (default : json) (d : dict) : json :=
  match dict_lookup k d with Some v => v | None => default end.

Definition dict_contains (k : string) (d : dict) : bool :=
  match dict_lookup k d with Some _ => true | None => false end.

(** [d[k]] *)
Definition dict_getitem (k : string) (d : dict) : result json :=
  match dict_lookup k d with Some v => Ok v | None => Raise KeyError end.

(** [d[k] = v]: an existing key keeps its place, a new key goes last. *)
Fixpoint dict_set (k : string) (v : json) (d : dict) : dict :=
  match d with
  | [] => [(k, v)]
  | (k', v') :: d' =>
      if String.eqb k k' then (k', v) :: d' else (k', v') :: dict_set k v d'
  end.

Definition dict_keys (d : dict) : list string := d.*1.

(** [x.get(k)] on an arbitrary value: only a dict has the method. *)
Definition py_get (x : json) (k : string) : result json :=
  match x with
  | JObj d => Ok (dict_get k JNull d)
  | _ => Raise AttributeError
  end.

(** [x.append(v)]: only a list has the method. *)
Definition py_append (x : json) (v : json) : result json :=
  match x with
  | JArr items => Ok (JArr (items ++ [v]))
  | _ => Raise AttributeError
  end.

Fixpoint chars (s : string) : list json :=
  match s with
  | EmptyString => []
  | String c s' => JStr (String c EmptyString) :: chars s'
  end.

(** [for x in v]: a list gives its elements, a dict its keys, a string its
    characters; anything else is not iterable. *)
Definition py_iter (v : json) : result (list json) :=
  match v with
  | JArr items => Ok items
  | JObj d => Ok (JStr <$> dict_keys d)
  | JStr s => Ok (chars s)
  | _ => Raise TypeError
  end.

(** [v == s] for a [str] [s]. *)
Definition py_eq_str (s : string) (v : json) : bool :=
  match v with
  | JStr s' => String.eqb s' s
  | _ => false
  end.

(** [s in vs] for a [str] [s] and a list [vs]. *)
Definition py_in_str (s : string) (vs : list json) : bool :=
  existsb (py_eq_str s) vs.

(** An [Optional[str]] as a JSON value. *)
Definition opt_json (o : option string) : json :=
  match o with Some s => JStr s | None => JNull end.

(** ** The world *)

Record audit_entry := AuditEntry {
  timestamp : string;
  action_of : string;
  details : dict;
}.

(** The global [agent_state]. *)
Record AgentState := mkAgentState {
  status : string;
  current_role : option string;
  current_feature : option string;
  started_at : option string;
  logs : list string;
  audit_log : list audit_entry;
}.

Record world := mkWorld {
  agent_state : AgentState;
  (** the JSON documents of [HARNESS_DIR], by file name *)
  files : gmap string dict;
  (** the readings [datetime.now(timezone.utc).isoformat()] returns *)
  clock : nat → string;
  ticks : nat;
}.

Definition initial_agent_state : AgentState :=
  {| status := "idle"; current_role := None; current_feature := None;
     started_at := None; logs := []; audit_log := [] |}.

Definition M (A : Type) : Type := world → world * result A.

Definition ret {A} (a : A) : M A := λ w, (w, Ok a).
Definition raise {A} (e : exn) : M A := λ w, (w, Raise e).
Definition bind {A B} (m : M A) (k : A → M B) : M B :=
  λ w, match m w with
       | (w', inr a) => k a w'
       | (w', inl e) => (w', inl e)
       end.
Definition lift {A} (r : result A) : M A := λ w, (w, r).

Notation "'let*' x := m 'in' k" := (bind m (λ x, k))
  (at level 10, x name, m at level 100, k at level 200).
Notation "m ;;; k" := (bind m (λ _, k))
  (at level 100, k at level 200, right associativity).

Definition utcnow : M string :=
  λ w, (mkWorld (agent_state w) (files w) (clock w) (S (ticks w)),
        Ok (clock w (ticks w))).

Definition get_agent : M AgentState := λ w, (w, Ok (agent_state w)).
Definition put_agent (a : AgentState) : M unit :=
  λ w, (mkWorld a (files w) (clock w) (ticks w), Ok tt).

(** ** Persistence *)

(** The document a file name stands for: [{}] when there is no file. *)
Definition document (fs : gmap string dict) (filename : string) : dict :=
  default [] (fs !! filename).

Definition load_json_file (filename : string) : M dict :=
  λ w, (w, Ok (document (files w) filename)).

Definition save_json_file (filename : string) (data : dict) : M unit :=
  λ w, (mkWorld (agent_state w) (<[filename := data]> (files w))
                (clock w) (ticks w), Ok tt).

(** ** The audit log *)

(** [l[-n:]] for [n > 0] *)
Definition py_last (n : nat) {A} (l : list A) : list A :=
  drop (length l - n) l.

Definition append_audit (e : audit_entry) (a : AgentState) : AgentState :=
  let log := audit_log a ++ [e] in
  {| status := status a; current_role := current_role a;
     current_feature := current_feature a; started_at := started_at a;
     logs := logs a;
     audit_log := if decide (100 < length log) then py_last 100 log else log |}.

Definition add_audit_log (action : string) (details : dict) : M unit :=
  let* now := utcnow in
  let* a := get_agent in
  put_agent (append_audit (AuditEntry now action details) a).

(** [GET /api/audit-log] *)
Definition get_audit_log : M (list audit_entry) :=
  let* a := get_agent in ret (audit_log a).

(** ** Request models *)

Record TaskCreate := mkTaskCreate {
  feature_id : string;
  description : option string;
  priority : option string;
}.

(** The defaults pydantic fills in for an absent field. *)
Definition TaskCreate_default (fid : string) : TaskCreate :=
  mkTaskCreate fid None (Some "normal").

Record TaskUpdate := mkTaskUpdate { new_status : string }.

Record AgentControl := mkAgentControl {
  action : string;
  role : option string;
  control_feature_id : option string;
}.

(** ** Task queue handlers *)

Definition queue_file : string := "codex-task-queue.json".
Definition features_file : string := "codex-features.json".

(** [[f.get("id") for f in fs]] *)
Fixpoint collect_ids (fs : list json) : result (list json) :=
  match fs with
  | [] => Ok []
  | f :: fs' =>
      match py_get f "id" with
      | inl e => inl e
      | inr v => match collect_ids fs' with
                 | inl e => inl e
                 | inr vs => Ok (v :: vs)
                 end
      end
  end.

Definition feature_ids (features : dict) : result (list json) :=
  match py_iter (dict_get "features" (JArr []) features) with
  | inl e => inl e
  | inr fs => collect_ids fs
  end.

Definition new_task_of (task : TaskCreate) (now : string) : dict :=
  [("feature_id", JStr (feature_id task));
   ("status", JStr "pending");
   ("created_at", JStr now);
   ("priority", opt_json (priority task))].

(** [POST /api/tasks] *)
Definition create_task (task : TaskCreate) : M dict :=
  let* queue := load_json_file queue_file in
  let* features := load_json_file features_file in
  let* ids := lift (feature_ids features) in
  if negb (py_in_str (feature_id task) ids) then
    raise (HTTPException 404 "Feature not found")
  else
    let* now := utcnow in
    let new_task := new_task_of task now in
    let queue :=
      if negb (dict_contains "queue" queue)
      then dict_set "queue" (JArr []) queue else queue in
    let* q := lift (dict_getitem "queue" queue) in
    let* q := lift (py_append q (JObj new_task)) in
    (* the list is appended to in place: the document sees it *)
    let queue := dict_set "queue" q queue in
    save_json_file queue_file queue ;;;
    add_audit_log "task_created" [("feature_id", JStr (feature_id task))] ;;;
    ret [("status", JStr "created"); ("task", JObj new_task)].

(** The body of the [for task in ...] loop of [update_task], from the
    element at index [i] on.  [items] is the whole sequence iterated over.
    [task.get] needs a dict; the keys of a dict and the characters of a
    string are strings, so a task that matches is an element of a list: it
    is mutated in place, inside the document. *)
Fixpoint update_loop (fid : string) (update : TaskUpdate) (queue : dict)
    (items : list json) (i : nat) (rest : list json) : M dict :=
  match rest with
  | [] => raise (HTTPException 404 "Task not found")
  | task :: rest' =>
      match task with
      | JObj t =>
          if py_eq_str fid (dict_get "feature_id" JNull t) then
            let old_status := dict_get "status" JNull t in
            let t := dict_set "status" (JStr (new_status update)) t in
            let* now := utcnow in
            let t := dict_set "updated_at" (JStr now) t in
            let queue := dict_set "queue" (JArr (<[i := JObj t]> items)) queue in
            save_json_file queue_file queue ;;;
            add_audit_log "task_updated"
              [("feature_id", JStr fid);
               ("old_status", old_status);
               ("new_status", JStr (new_status update))] ;;;
            ret [("status", JStr "updated"); ("task", JObj t)]
          else update_loop fid update queue items (S i) rest'
      | _ => raise AttributeError
      end
  end.

(** [PATCH /api/tasks/{feature_id}] *)
Definition update_task (fid : string) (update : TaskUpdate) : M dict :=
  let* queue := load_json_file queue_file in
  let* items := lift (py_iter (dict_get "queue" (JArr []) queue)) in
  update_loop fid update queue items 0 items.

(** ** Agent lifecycle *)

Definition set_status (s : string) (a : AgentState) : AgentState :=
  {| status := s; current_role := current_role a;
     current_feature := current_feature a; started_at := started_at a;
     logs := logs a; audit_log := audit_log a |}.

Definition set_current_role (r : option string) (a : AgentState) : AgentState :=
  {| status := status a; current_role := r;
     current_feature := current_feature a; started_at := started_at a;
     logs := logs a; audit_log := audit_log a |}.

Definition set_current_feature (f : option string) (a : AgentState) : AgentState :=
  {| status := status a; current_role := current_role a;
     current_feature := f; started_at := started_at a;
     logs := logs a; audit_log := audit_log a |}.

Definition set_started_at (t : option string) (a : AgentState) : AgentState :=
  {| status := status a; current_role := current_role a;
     current_feature := current_feature a; started_at := t;
     logs := logs a; audit_log := audit_log a |}.

Definition modify_agent (f : AgentState → AgentState) : M unit :=
  let* a := get_agent in put_agent (f a).

Definition status_response : M dict :=
  let* a := get_agent in ret [("status", JStr (status a))].

(** [POST /api/agent/control] *)
Definition control_agent (control : AgentControl) : M dict :=
  if String.eqb (action control) "start" then
    modify_agent (set_status "running") ;;;
    modify_agent (set_current_role (role control)) ;;;
    modify_agent (set_current_feature (control_feature_id control)) ;;;
    (let* now := utcnow in modify_agent (set_started_at (Some now))) ;;;
    add_audit_log "agent_started"
      [("role", opt_json (role control));
       ("feature_id", opt_json (control_feature_id control))] ;;;
    status_response
  else if String.eqb (action control) "pause" then
    let* a := get_agent in
    if negb (String.eqb (status a) "running") then
      raise (HTTPException 400 "Agent not running")
    else
      modify_agent (set_status "paused") ;;;
      add_audit_log "agent_paused" [] ;;;
      status_response
  else if String.eqb (action control) "resume" then
    let* a := get_agent in
    if negb (String.eqb (status a) "paused") then
      raise (HTTPException 400 "Agent not paused")
    else
      modify_agent (set_status "running") ;;;
      add_audit_log "agent_resumed" [] ;;;
      status_response
  else if String.eqb (action control) "stop" then
    modify_agent (set_status "idle") ;;;
    modify_agent (set_current_role None) ;;;
    modify_agent (set_current_feature None) ;;;
    add_audit_log "agent_stopped" [] ;;;
    status_response
  else
    raise (HTTPException 400 "Invalid action").

(** ** Sequences of audit appends *)

(** [add_audit_log] once per element, in order. *)
Fixpoint append_all (entries : list (string * dict)) : M unit :=
  match entries with
  | [] => ret tt
  | (a, d) :: entries' => add_audit_log a d ;;; append_all entries'
  end.

(** The entries [append_all] builds when the clock stands at reading [t]. *)
Fixpoint stamped (clk : nat → string) (t : nat) (entries : list (string * dict))
    : list audit_entry :=
  match entries with
  | [] => []
  | (a, d) :: entries' => AuditEntry (clk t) a d :: stamped clk (S t) entries'
  end.

(** A clock for examples: reading [n] is the text ["t<n>"]. *)
Definition example_clock (n : nat) : string := String.append "t" (pretty n).

Definition example_running : AgentState :=
  {| status := "running"; current_role := Some "coder";
     current_feature := Some "F1"; started_at := Some "t0";
     logs := []; audit_log := [] |}.

(** ** Well-formed queue contents *)

(** Every element is a task object and none has the feature id [fid]. *)
Definition no_task_for (fid : string) (items : list json) : bool :=
  forallb (λ t, match t with
                | JObj d => negb (py_eq_str fid (dict_get "feature_id" JNull d))
                | _ => false
                end) items.

(** The tasks a run of [create_task] calls builds, one call after the
    other, when the clock stands at reading [t]: every call reads the clock
    twice, for the task and for its audit entry. *)
Fixpoint created_tasks (clk : nat → string) (t : nat) (calls : list TaskCreate)
    : list json :=
  match calls with
  | [] => []
  | task :: calls' =>
      JObj (new_task_of task (clk t)) :: created_tasks clk (S (S t)) calls'
  end.

(** ** The event loop *)

(** The handlers are coroutines of one asyncio event loop.  None of
    [create_task], [update_task] and [control_agent] contains an [await]:
    once the loop starts one of them it runs to its [return] or [raise]
    before any other coroutine runs.  Requests in flight at the same time
    are therefore served one after the other, in the order the loop picks. *)
Inductive request : Type :=
| PostTask (task : TaskCreate)
| PatchTask (fid : string) (update : TaskUpdate)
| PostControl (control : AgentControl).

Definition handle (r : request) : M dict :=
  match r with
  | PostTask task => create_task task
  | PatchTask fid update => update_task fid update
  | PostControl control => control_agent control
  end.

Fixpoint serve (reqs : list request) (w : world) : world * list (result dict) :=
  match reqs with
  | [] => (w, [])
  | r :: reqs' =>
      let '(w1, resp) := handle r w in
      let '(w2, resps) := serve reqs' w1 in
      (w2, resp :: resps)
  end.

Definition succeeded {A} (r : result A) : bool :=
  match r with inr _ => true | inl _ => false end.

(** The tasks of the persisted queue document. *)
Definition persisted_queue (w : world) : list json :=
  match dict_get "queue" (JArr []) (document (files w) queue_file) with
  | JArr items => items
  | _ => []
  end.

(** ** Log streaming *)

Module EventStream.

Definition newline : string := String (Ascii.ascii_of_nat 10) EmptyString.

(** [f"data: {line}\n\n"] *)
Definition frame (line : string) : string :=
  String.append "data: " (String.append line (String.append newline newline)).

(** Where the generator [event_generator] is suspended: at the top of
    the [while] loop (not started yet, or in [asyncio.sleep]), or at the
    [yield] of the [for] loop over [range(_, hi)], after [log_buffer[i]]. *)
Inductive gen_pc : Type :=
| LoopTop
| Yielded (i hi : nat).

Record generator := mkGenerator { last_idx : nat; pc : gen_pc }.

(** The generator object a call [event_generator()] returns. *)
Definition event_generator : generator := mkGenerator 0 LoopTop.

(** What a handler can hand to [StreamingResponse] as the body: the
    function [event_generator] itself, or the generator object that
    calling it returns. *)
Inductive content : Type :=
| GeneratorFunction
| GeneratorObject (g : generator).

(** [GET /api/logs/stream]: the body handed over is [event_generator],
    not [event_generator()]. *)
Definition stream_logs : content := GeneratorFunction.

(** How [StreamingResponse] comes by the iterator of its body when it
    sends the response: an async generator object is iterated as it is;
    anything else goes through [iter], and a function is not iterable. *)
Definition body_iterator (c : content) : result generator :=
  match c with
  | GeneratorObject g => Ok g
  | GeneratorFunction => Raise TypeError
  end.

Definition yield_at (log_buffer : list string) (i hi : nat) (g : generator)
    : result (generator * option string) :=
  match log_buffer !! i with
  | Some line => Ok (mkGenerator (last_idx g) (Yielded i hi), Some (frame line))
  | None => Raise IndexError
  end.

(** Run the generator from where it is suspended to its next suspension;
    the frame is what it yields, if it yields. *)
Definition resume (log_buffer : list string) (g : generator)
    : result (generator * option string) :=
  match pc g with
  | LoopTop =>
      if decide (last_idx g < length log_buffer)
      then yield_at log_buffer (last_idx g) (length log_buffer) g
      else Ok (g, None)
  | Yielded i hi =>
      if decide (S i < hi)
      then yield_at log_buffer (S i) hi g
      else Ok (mkGenerator (length log_buffer) LoopTop, None)
  end.

(** Modelled from the spec: [publish(line)], the producer of
    [log_buffer], which no code under [gui/main.py] defines; it appends
    the line to the in-memory sequence. *)
Definition publish (line : string) (log_buffer : list string) : list string :=
  log_buffer ++ [line].

Record stream := mkStream {
  log_buffer : list string;
  gen : generator;
  (** the frames the generator has yielded so far *)
  sent : list string;
}.

(** The generator object [event_generator()] seen by itself, at the
    moment of a call made while [log_buffer] holds [backlog], with a
    consumer about to iterate it.  [stream_logs] does not make this call:
    what a subscriber of the program gets is [session] below. *)
Definition iterating (backlog : list string) : stream :=
  mkStream backlog event_generator [].

(** What the event loop does next: [log_buffer] is appended to, or the
    generator is resumed. *)
Inductive event : Type :=
| Publish (line : string)
| Resume.

Definition step (e : event) (st : stream) : result stream :=
  match e with
  | Publish line => Ok (mkStream (publish line (log_buffer st)) (gen st) (sent st))
  | Resume =>
      match resume (log_buffer st) (gen st) with
      | inl x => inl x
      | inr (g, out) => Ok (mkStream (log_buffer st) g (sent st ++ option_list out))
      end
  end.

Fixpoint run (sched : list event) (st : stream) : result stream :=
  match sched with
  | [] => Ok st
  | e :: sched' =>
      match step e st with
      | inl x => inl x
      | inr st' => run sched' st'
      end
  end.

Fixpoint published (sched : list event) : list string :=
  match sched with
  | [] => []
  | Publish line :: sched' => line :: published sched'
  | Resume :: sched' => published sched'
  end.

(** How far into [log_buffer] the generator has got. *)
Definition cursor (g : generator) : nat :=
  match pc g with
  | LoopTop => last_idx g
  | Yielded i _ => S i
  end.

(** A subscriber session of the program: the response of [stream_logs] is
    sent while [log_buffer] holds [backlog], and the event loop then
    follows [sched]. *)
Definition session (backlog : list string) (sched : list event) : result stream :=
  match body_iterator stream_logs with
  | inl x => inl x
  | inr g => run sched (mkStream backlog g [])
  end.

(** The frames a subscriber has received at the end of a session. *)
Definition received (backlog : list string) (sched : list event) : list string :=
  match session backlog sched with
  | inl _ => []
  | inr st => sent st
  end.

(** The generator never reads past what it has checked to be there. *)
Definition in_bounds (st : stream) : Prop :=
  match pc (gen st) with
  | LoopTop => last_idx (gen st) ≤ length (log_buffer st)
  | Yielded i hi => S i ≤ hi ∧ hi ≤ length (log_buffer st)
  end.

(** What has been sent are the frames of [d], lines of the buffer before
    the cursor, each taken at most once and in the order of the buffer. *)
Definition served (st : stream) (d : list string) : Prop :=
  sent st = frame <$> d ∧
  d `sublist_of` take (cursor (gen st)) (log_buffer st) ∧
  in_bounds st.

(** Every line of the buffer before the cursor has been sent, once and in
    order, and a batch under way runs to the end of the buffer. *)
Definition caught_up (st : stream) : Prop :=
  sent st = frame <$> take (cursor (gen st)) (log_buffer st) ∧
  match pc (gen st) with
  | LoopTop => last_idx (gen st) ≤ length (log_buffer st)
  | Yielded i hi => S i ≤ hi ∧ hi = length (log_buffer st)
  end.

End EventStream.

(** ** Files that cannot be opened *)

(** The files for which [open] raises [OSError] (no permission, say),
    for reading and for writing.  [open] fails before anything is read or
    written.  A write that fails after [open] has truncated the file is not
    represented: [files] holds whole documents. *)
Record faults := mkFaults {
  unreadable : string → bool;
  unwritable : string → bool;
}.

Definition healthy : faults := mkFaults (λ _, false) (λ _, false).

(** [load_json_file] under [f]: no file, no [open]. *)
Definition load_json_file_on (f : faults) (filename : string) : M dict :=
  λ w, match files w !! filename with
       | None => (w, Ok [])
       | Some d => if unreadable f filename then (w, Raise OSError) else (w, Ok d)
       end.

(** [save_json_file] under [f] *)
Definition save_json_file_on (f : faults) (filename : string) (data : dict) : M unit :=
  λ w, if unwritable f filename then (w, Raise OSError)
       else save_json_file filename data w.

(** [create_task] over a given [load_json_file] and [save_json_file]. *)
Definition create_task_with (load : string → M dict) (save : string → dict → M unit)
    (task : TaskCreate) : M dict :=
  let* queue := load queue_file in
  let* features := load features_file in
  let* ids := lift (feature_ids features) in
  if negb (py_in_str (feature_id task) ids) then
    raise (HTTPException 404 "Feature not found")
  else
    let* now := utcnow in
    let new_task := new_task_of task now in
    let queue :=
      if negb (dict_contains "queue" queue)
      then dict_set "queue" (JArr []) queue else queue in
    let* q := lift (dict_getitem "queue" queue) in
    let* q := lift (py_append q (JObj new_task)) in
    let queue := dict_set "queue" q queue in
    save queue_file queue ;;;
    add_audit_log "task_created" [("feature_id", JStr (feature_id task))] ;;;
    ret [("status", JStr "created"); ("task", JObj new_task)].

(** [update_task] over a given [load_json_file] and [save_json_file]. *)
Fixpoint update_loop_with (save : string → dict → M unit)
    (fid : string) (update : TaskUpdate) (queue : dict)
    (items : list json) (i : nat) (rest : list json) : M dict :=
  match rest with
  | [] => raise (HTTPException 404 "Task not found")
  | task :: rest' =>
      match task with
      | JObj t =>
          if py_eq_str fid (dict_get "feature_id" JNull t) then
            let old_status := dict_get "status" JNull t in
            let t := dict_set "status" (JStr (new_status update)) t in
            let* now := utcnow in
            let t := dict_set "updated_at" (JStr now) t in
            let queue := dict_set "queue" (JArr (<[i := JObj t]> items)) queue in
            save queue_file queue ;;;
            add_audit_log "task_updated"
              [("feature_id", JStr fid);
               ("old_status", old_status);
               ("new_status", JStr (new_status update))] ;;;
            ret [("status", JStr "updated"); ("task", JObj t)]
          else update_loop_with save fid update queue items (S i) rest'
      | _ => raise AttributeError
      end
  end.

Definition update_task_with (load : string → M dict) (save : string → dict → M unit)
    (fid : string) (update : TaskUpdate) : M dict :=
  let* queue := load queue_file in
  let* items := lift (py_iter (dict_get "queue" (JArr []) queue)) in
  update_loop_with save fid update queue items 0 items.

(** The two handlers when [open] fails for the files of [f]. *)
Definition create_task_on (f : faults) : TaskCreate → M dict :=
  create_task_with (load_json_file_on f) (save_json_file_on f).

Definition update_task_on (f : faults) : string → TaskUpdate → M dict :=
  update_task_with (load_json_file_on f) (save_json_file_on f).

(** Faults for examples: the queue file can be read but not written, and
    cannot be read. *)
Definition queue_read_only : faults :=
  mkFaults (λ _, false) (λ name, String.eqb name queue_file).

Definition queue_unreadable : faults :=
  mkFaults (λ name, String.eqb name queue_file) (λ _, false).

(** ** Error kinds *)

(** The error kinds of the control surface. *)
Inductive error_kind : Type :=
| InvalidTransition
| UnknownAction
| FeatureNotFound
| TaskNotFound
| IOError.

(** What a caller can tell from a failure: the kind that the status code
    and the detail of an [HTTPException] of the handlers stand for, and the
    kind of an [OSError] that a handler lets through. *)
Definition kind_of (e : exn) : option error_kind :=
  match e with
  | HTTPException 400 d =>
      if String.eqb d "Agent not running" then Some InvalidTransition
      else if String.eqb d "Agent not paused" then Some InvalidTransition
      else if String.eqb d "Invalid action" then Some UnknownAction
      else None
  | HTTPException 404 d =>
      if String.eqb d "Feature not found" then Some FeatureNotFound
      else if String.eqb d "Task not found" then Some TaskNotFound
      else None
  | OSError => Some IOError
  | _ => None
  end.

Definition status_code_of (e : exn) : option nat :=
  match e with
  | HTTPException c _ => Some c
  | _ => None
  end.

(** ** Worlds for examples *)

(** A catalog with the features [F1] and [F2], and no queue file. *)
Definition example_files : gmap string dict :=
  {[ features_file :=
       [("features", JArr [JObj [("id", JStr "F1")]; JObj [("id", JStr "F2")]])] ]}.

Definition example_world : world :=
  mkWorld initial_agent_state example_files example_clock 0.

Definition example_task (fid st : string) : json :=
  JObj [("feature_id", JStr fid); ("status", JStr st);
        ("created_at", JStr "t0"); ("priority", JStr "normal")].

(** The same catalog, and a queue with tasks for [F1], [F2] and [F2]. *)
Definition example_queue_world : world :=
  mkWorld initial_agent_state
    (<[queue_file :=
         [("queue", JArr [example_task "F1" "pending";
                          example_task "F2" "pending";
                          example_task "F2" "blocked"])]]> example_files)
    example_clock 7.

(** ** The transition table of the lifecycle *)

(** The status an action leads to from a status, when the action is
    allowed there: the table the branches of [control_agent] are checked
    against. *)
Definition transition_table (a s : string) : option string :=
  if String.eqb a "start" then Some "running"
  else if String.eqb a "pause" then
    (if String.eqb s "running" then Some "paused" else None)
  else if String.eqb a "resume" then
    (if String.eqb s "paused" then Some "running" else None)
  else if String.eqb a "stop" then Some "idle"
  else None.

(** The audit action a lifecycle action is recorded under. *)
Definition audit_action (a : string) : string :=
  if String.eqb a "start" then "agent_started"
  else if String.eqb a "pause" then "agent_paused"
  else if String.eqb a "resume" then "agent_resumed"
  else "agent_stopped".

(** The statuses a handler assigns. *)
Definition assigned_statuses : list string := ["idle"; "running"; "paused"].

(** ** Reading the queue *)

(** [GET /api/tasks] *)
Definition get_tasks : M dict := load_json_file queue_file.

(** The audit action a request is recorded under when it succeeds. *)
Definition request_action (r : request) : string :=
  match r with
  | PostTask _ => "task_created"
  | PatchTask _ _ => "task_updated"
  | PostControl c => audit_action (action c)
  end.

(** ** The generator seen from further down the buffer *)

(** The generator [g] with every index moved [k] lines down the buffer. *)
Definition shift_gen (k : nat) (g : EventStream.generator) : EventStream.generator :=
  EventStream.mkGenerator (k + EventStream.last_idx g)
    match EventStream.pc g with
    | EventStream.LoopTop => EventStream.LoopTop
    | EventStream.Yielded i hi => EventStream.Yielded (k + i) (k + hi)
    end.

(** [st] is [st2] behind a prefix: its buffer is that of [st2] after the
    lines [skipped], its generator is that of [st2] moved past them, and it
    has sent the frames [out] before what [st2] has sent. *)
Definition behind (skipped out : list string) (st st2 : EventStream.stream) : Prop :=
  EventStream.log_buffer st = skipped ++ EventStream.log_buffer st2 ∧
  EventStream.gen st = shift_gen (length skipped) (EventStream.gen st2) ∧
  EventStream.sent st = out ++ EventStream.sent st2.

(** ** Recent logs *)

(** [l[-limit:]] for any integer [limit]: the last [limit] elements when
    [limit] is positive; from index [-limit] on, so the whole list for 0,
    when it is not. *)
Definition py_tail {A} (limit : Z) (l : list A) : list A :=
  if decide (0 < limit)%Z
  then drop (length l - Z.to_nat limit) l
  else drop (Z.to_nat (- limit)) l.

(** A file name that the pattern [*.log] matches. *)
Definition is_log_name (name : string) : bool :=
  let n := String.length name in
  (4 <=? n) && String.eqb (String.substring (n - 4) 4 name) ".log".

(** The order of [sorted(..., reverse=True)] on the paths of one
    directory: greater names first. *)
Definition newest_first (f g : string * list string) : Prop :=
  String.le g.1 f.1.

#[global] Instance newest_first_dec : RelDecision newest_first.
Proof. intros f g. unfold newest_first. apply _. Defined.

#[global] Instance newest_first_trans : Transitive newest_first.
Proof. intros f g h Hfg Hgh. unfold newest_first in *. by etrans. Qed.

#[global] Instance newest_first_total : Total newest_first.
Proof. intros f g. unfold newest_first. destruct (total String.le f.1 g.1); auto. Qed.

Section Logs.

(** [str.strip], the builtin. *)
Variable strip : string → string.

(** [LOGS_DIR] is given by its regular text files: for every file name the
    lines [readlines] returns.  The names of a directory are distinct, so
    the sorted order does not depend on the order [glob] lists them in. *)
Definition log_files (logs_dir : gmap string (list string))
    : list (string * list string) :=
  filter (λ f, is_log_name f.1 = true) (map_to_list logs_dir).

(** [sorted(log_files, reverse=True)[:5]] *)
Definition read_files (logs_dir : gmap string (list string))
    : list (string * list string) :=
  take 5 (merge_sort newest_first (log_files logs_dir)).

Definition log_entry (name line : string) : json :=
  JObj [("file", JStr name); ("line", JStr (strip line))].

(** [logs] when the loop over the files is done. *)
Definition collected_logs (limit : Z) (logs_dir : gmap string (list string))
    : list json :=
  f ← read_files logs_dir; log_entry f.1 <$> py_tail limit f.2.

Definition recent_logs (limit : Z) (logs_dir : gmap string (list string))
    : list json :=
  py_tail limit (collected_logs limit logs_dir).

(** [GET /api/logs] *)
Definition get_logs (limit : Z) (logs_dir : gmap string (list string)) : dict :=
  [("logs", JArr (recent_logs limit logs_dir))].

End Logs.

(** A log directory with six log files, one line each. *)
Definition example_six_logs : gmap string (list string) :=
  {[ "a.log" := ["a"]; "b.log" := ["b"]; "c.log" := ["c"];
     "d.log" := ["d"]; "e.log" := ["e"]; "f.log" := ["f"] ]}.

(** A log directory for examples. *)
Definition example_logs_dir : gmap string (list string) :=
  {[ "a.log" := ["one"; "two"; "three"];
     "b.log" := ["four"; "five"];
     "notes.txt" := ["six"] ]}.

(** * Properties *)

(** ** Audit log *)

Section AuditLog.

Lemma py_last_short {A} (n : nat) (l : list A) :
  length l ≤ n → py_last n l = l.
Proof.
  intros Hle. unfold py_last.
  replace (length l - n) with 0 by lia. reflexivity.
Qed.

Lemma py_last_length {A} (n : nat) (l : list A) :
  length (py_last n l) = length l `min` n.
Proof. unfold py_last. rewrite length_drop. lia. Qed.

Lemma py_last_app_l {A} (n : nat) (l r : list A) :
  py_last n (py_last n l ++ r) = py_last n (l ++ r).
Proof.
  destruct (decide (length l ≤ n)) as [Hle|Hgt].
  - by rewrite (py_last_short n l).
  - unfold py_last at 1 3.
    rewrite !length_app, py_last_length.
    replace (length l `min` n + length r - n) with (length r) by lia.
    replace (length l + length r - n) with ((length l - n) + length r) by lia.
    rewrite <- drop_drop. f_equal.
    unfold py_last. rewrite drop_app_le by lia. reflexivity.
Qed.

Lemma append_audit_log (e : audit_entry) (a : AgentState) :
  audit_log (append_audit e a) = py_last 100 (audit_log a ++ [e]).
Proof.
  unfold append_audit; simpl. case_decide as Hlen; [done|].
  symmetry. apply py_last_short. lia.
Qed.

Lemma add_audit_log_run (action : string) (details : dict) (w : world) :
  add_audit_log action details w =
    (mkWorld (append_audit (AuditEntry (clock w (ticks w)) action details)
                           (agent_state w))
             (files w) (clock w) (S (ticks w)), Ok tt).
Proof. reflexivity. Qed.

Lemma append_all_log (entries : list (string * dict)) (w : world) :
  length (audit_log (agent_state w)) ≤ 100 →
  audit_log (agent_state (append_all entries w).1) =
    py_last 100 (audit_log (agent_state w)
                 ++ stamped (clock w) (ticks w) entries).
Proof.
  revert w. induction entries as [|[a d] entries IH]; intros w Hw.
  - simpl. rewrite app_nil_r. symmetry. by apply py_last_short.
  - cbn [append_all stamped]. unfold bind at 1.
    rewrite add_audit_log_run. cbv beta iota.
    rewrite IH; cbn [agent_state clock ticks].
    + rewrite append_audit_log, py_last_app_l, <- app_assoc. reflexivity.
    + rewrite append_audit_log, py_last_length. lia.
Qed.

Lemma stamped_length clk t entries :
  length (stamped clk t entries) = length entries.
Proof.
  revert t. induction entries as [|[a d] entries IH]; intros t; simpl;
    [done | by rewrite IH].
Qed.

(** C4: starting from the empty audit log, after any sequence of appends
    the snapshot is the last 100 of the appended entries, in append
    order; it holds [min N 100] entries, so never more than 100 and
    exactly 100 once more than 100 were appended. *)
Theorem audit_log_bounded_fifo
    (fs : gmap string dict) (clk : nat → string) (t0 : nat)
    (entries : list (string * dict)) :
  let w := mkWorld initial_agent_state fs clk t0 in
  let w' := (append_all entries w).1 in
  let '(_, snapshot) := get_audit_log w' in
  snapshot = Ok (py_last 100 (stamped clk t0 entries)) ∧
  length (audit_log (agent_state w')) = length entries `min` 100 ∧
  length (audit_log (agent_state w')) ≤ 100 ∧
  audit_log (agent_state w') = drop (length entries - 100) (stamped clk t0 entries).
Proof.
  intros w w'. unfold get_audit_log, bind, get_agent, ret.
  assert (Hlog : audit_log (agent_state w') = py_last 100 (stamped clk t0 entries)).
  { subst w'. rewrite append_all_log; [done | simpl; lia]. }
  rewrite Hlog, py_last_length, stamped_length.
  repeat split; try lia.
  unfold py_last. by rewrite stamped_length.
Qed.

End AuditLog.

(** ** Agent lifecycle *)

Section AgentLifecycle.

(** What [stop] does in every state: it cannot fail, the status becomes
    [idle], role and feature are cleared and one [agent_stopped] entry is
    appended.  [started_at] is not assigned. *)
Lemma control_agent_stop (c : AgentControl) (w : world) :
  action c = "stop" →
  control_agent c w =
    (mkWorld
       (append_audit (AuditEntry (clock w (ticks w)) "agent_stopped" [])
          {| status := "idle"; current_role := None; current_feature := None;
             started_at := started_at (agent_state w);
             logs := logs (agent_state w);
             audit_log := audit_log (agent_state w) |})
       (files w) (clock w) (S (ticks w)),
     Ok [("status", JStr "idle")]).
Proof. intros Hact. unfold control_agent. rewrite Hact. reflexivity. Qed.

(** C2: [stop] on a running agent that was started at reading ["t0"]
    answers [idle], clears role and feature and appends [agent_stopped],
    but the agent state still carries [started_at = "t0"]. *)
Theorem control_agent_stop_keeps_started_at :
  let w := mkWorld example_running ∅ example_clock 1 in
  let '(w', r) := control_agent (mkAgentControl "stop" None None) w in
  r = Ok [("status", JStr "idle")] ∧
  status (agent_state w') = "idle" ∧
  current_role (agent_state w') = None ∧
  current_feature (agent_state w') = None ∧
  action_of <$> audit_log (agent_state w') = ["agent_stopped"] ∧
  started_at (agent_state w') = Some "t0".
Proof. vm_compute. repeat split. Qed.

Lemma control_agent_pause_rejected (c : AgentControl) (w : world) :
  action c = "pause" → status (agent_state w) ≠ "running" →
  control_agent c w = (w, Raise (HTTPException 400 "Agent not running")).
Proof.
  intros Hact Hst. unfold control_agent. rewrite Hact. simpl.
  unfold bind, get_agent, raise.
  destruct (String.eqb_spec (status (agent_state w)) "running"); simpl; congruence.
Qed.

Lemma control_agent_resume_rejected (c : AgentControl) (w : world) :
  action c = "resume" → status (agent_state w) ≠ "paused" →
  control_agent c w = (w, Raise (HTTPException 400 "Agent not paused")).
Proof.
  intros Hact Hst. unfold control_agent. rewrite Hact. simpl.
  unfold bind, get_agent, raise.
  destruct (String.eqb_spec (status (agent_state w)) "paused"); simpl; congruence.
Qed.

(** C3: [pause] outside [running] and [resume] outside [paused] raise
    the 400 of an invalid transition, and the world after the call is
    the world before it: no field of the agent state changes and the
    audit log gets no entry. *)
Theorem control_agent_invalid_transition (c : AgentControl) (w : world) :
  (action c = "pause" → status (agent_state w) ≠ "running" →
     control_agent c w = (w, Raise (HTTPException 400 "Agent not running"))) ∧
  (action c = "resume" → status (agent_state w) ≠ "paused" →
     control_agent c w = (w, Raise (HTTPException 400 "Agent not paused"))).
Proof.
  split; [apply control_agent_pause_rejected | apply control_agent_resume_rejected].
Qed.

Lemma control_agent_invalid_transition_witness :
  let w := mkWorld initial_agent_state ∅ example_clock 0 in
  control_agent (mkAgentControl "pause" None None) w
    = (w, Raise (HTTPException 400 "Agent not running")) ∧
  control_agent (mkAgentControl "resume" None None) w
    = (w, Raise (HTTPException 400 "Agent not paused")).
Proof.
  intros w.
  destruct (control_agent_invalid_transition (mkAgentControl "pause" None None) w)
    as [Hpause _].
  destruct (control_agent_invalid_transition (mkAgentControl "resume" None None) w)
    as [_ Hresume].
  split; [apply Hpause | apply Hresume]; simpl; congruence.
Defined.

End AgentLifecycle.

(** ** Task queue *)

Section TaskQueue.

Lemma dict_lookup_set_eq k v (d : dict) :
  dict_lookup k (dict_set k v d) = Some v.
Proof.
  induction d as [|[k' v'] d IH]; simpl.
  - by rewrite String.eqb_refl.
  - destruct (String.eqb k k') eqn:Hk; simpl; rewrite Hk; [done | apply IH].
Qed.

Lemma dict_set_set k v1 v2 (d : dict) :
  dict_set k v2 (dict_set k v1 d) = dict_set k v2 d.
Proof.
  induction d as [|[k' v'] d IH]; simpl.
  - by rewrite String.eqb_refl.
  - destruct (String.eqb k k') eqn:Hk; simpl; rewrite Hk; [done | by rewrite IH].
Qed.

Lemma dict_get_set_eq k v dflt (d : dict) :
  dict_get k dflt (dict_set k v d) = v.
Proof. unfold dict_get. by rewrite dict_lookup_set_eq. Qed.

(** [create_task], one case per way out of the handler. *)
Lemma create_task_run (task : TaskCreate) (w : world) :
  let doc := document (files w) queue_file in
  let new_task := new_task_of task (clock w (ticks w)) in
  create_task task w =
    match feature_ids (document (files w) features_file) with
    | inl e => (w, inl e)
    | inr ids =>
        if py_in_str (feature_id task) ids then
          match py_append (dict_get "queue" (JArr []) doc) (JObj new_task) with
          | inl e =>
              (mkWorld (agent_state w) (files w) (clock w) (S (ticks w)), inl e)
          | inr q =>
              (mkWorld
                 (append_audit
                    (AuditEntry (clock w (S (ticks w))) "task_created"
                       [("feature_id", JStr (feature_id task))])
                    (agent_state w))
                 (<[queue_file := dict_set "queue" q doc]> (files w))
                 (clock w) (S (S (ticks w))),
               Ok [("status", JStr "created"); ("task", JObj new_task)])
          end
        else (w, Raise (HTTPException 404 "Feature not found"))
    end.
Proof.
  intros doc new_task. unfold create_task, bind, load_json_file, lift.
  fold doc. destruct (feature_ids _) as [e|ids]; [done|].
  destruct (py_in_str _ ids); simpl; [|done].
  unfold dict_contains, dict_getitem, dict_get.
  destruct (dict_lookup "queue" doc) as [v|] eqn:Hq; simpl.
  - rewrite Hq. destruct (py_append v _); reflexivity.
  - rewrite dict_lookup_set_eq. simpl. by rewrite dict_set_set.
Qed.

Lemma create_task_missing_feature (task : TaskCreate) (w : world) (ids : list json) :
  feature_ids (document (files w) features_file) = Ok ids →
  py_in_str (feature_id task) ids = false →
  create_task task w = (w, Raise (HTTPException 404 "Feature not found")).
Proof.
  intros Hids Hin. rewrite create_task_run. cbv zeta. by rewrite Hids, Hin.
Qed.

Lemma create_task_appends (task : TaskCreate) (w : world) (ids items : list json) :
  feature_ids (document (files w) features_file) = Ok ids →
  py_in_str (feature_id task) ids = true →
  let doc := document (files w) queue_file in
  let new_task := new_task_of task (clock w (ticks w)) in
  dict_get "queue" (JArr []) doc = JArr items →
  ∃ w', create_task task w
          = (w', Ok [("status", JStr "created"); ("task", JObj new_task)]) ∧
        files w' = <[queue_file :=
                      dict_set "queue" (JArr (items ++ [JObj new_task])) doc]>
                   (files w) ∧
        persisted_queue w' = items ++ [JObj new_task] ∧
        clock w' = clock w ∧ ticks w' = S (S (ticks w)).
Proof.
  intros Hids Hin doc new_task Hitems.
  pose proof (create_task_run task w) as Hrun. cbv zeta in Hrun.
  rewrite Hids, Hin in Hrun. fold doc in Hrun. rewrite Hitems in Hrun.
  simpl in Hrun. eexists. split; [exact Hrun|]. simpl.
  split; [done|]. split; [|done].
  unfold persisted_queue, document; simpl.
  rewrite lookup_insert_eq; simpl. by rewrite dict_get_set_eq.
Qed.

(** C5: a feature id that is not among the ids of the catalog file, as
    it is when the handler runs, gets the 404 of a missing feature and
    the world is untouched; one that is there gets a new task with status
    [pending] and the current clock reading as [created_at], appended to
    the queue of the document, which is saved whole, and returned. *)
Theorem create_task_validates_feature
    (task : TaskCreate) (w : world) (ids : list json) :
  feature_ids (document (files w) features_file) = Ok ids →
  let doc := document (files w) queue_file in
  let new_task := new_task_of task (clock w (ticks w)) in
  (py_in_str (feature_id task) ids = false →
     create_task task w = (w, Raise (HTTPException 404 "Feature not found"))) ∧
  (py_in_str (feature_id task) ids = true →
     ∀ items, dict_get "queue" (JArr []) doc = JArr items →
     ∃ w', create_task task w
             = (w', Ok [("status", JStr "created"); ("task", JObj new_task)]) ∧
           files w' = <[queue_file :=
                         dict_set "queue" (JArr (items ++ [JObj new_task])) doc]>
                      (files w) ∧
           persisted_queue w' = items ++ [JObj new_task] ∧
           dict_lookup "status" new_task = Some (JStr "pending") ∧
           dict_lookup "created_at" new_task = Some (JStr (clock w (ticks w)))).
Proof.
  intros Hids doc new_task. split.
  - by apply create_task_missing_feature.
  - intros Hin items Hitems.
    destruct (create_task_appends task w ids items Hids Hin Hitems)
      as (w' & Hrun & Hfiles & Hq & _).
    by exists w'.
Qed.

Lemma create_task_validates_feature_witness :
  create_task (TaskCreate_default "F9") example_world
    = (example_world, Raise (HTTPException 404 "Feature not found")) ∧
  ∃ w', create_task (TaskCreate_default "F1") example_world
          = (w', Ok [("status", JStr "created");
                     ("task", JObj (new_task_of (TaskCreate_default "F1") "t0"))]) ∧
        persisted_queue w' = [JObj (new_task_of (TaskCreate_default "F1") "t0")].
Proof.
  split.
  - apply (create_task_validates_feature (TaskCreate_default "F9") example_world
             [JStr "F1"; JStr "F2"]); reflexivity.
  - destruct (create_task_validates_feature (TaskCreate_default "F1") example_world
                [JStr "F1"; JStr "F2"] eq_refl) as [_ Hok].
    destruct (Hok eq_refl [] eq_refl) as (w' & Hrun & _ & Hq & _).
    exists w'. split; [exact Hrun | exact Hq].
Defined.

(** C9: whenever [create_task] succeeds, the task it returns is the last
    task of the saved queue and its keys are exactly [feature_id],
    [status], [created_at] and [priority]; the description of the request
    has no influence on the handler. *)
Theorem create_task_drops_description
    (task : TaskCreate) (w w' : world) (resp : dict) :
  create_task task w = (w', Ok resp) →
  ∃ new_task,
    resp = [("status", JStr "created"); ("task", JObj new_task)] ∧
    last (persisted_queue w') = Some (JObj new_task) ∧
    dict_keys new_task = ["feature_id"; "status"; "created_at"; "priority"] ∧
    ∀ d, create_task (mkTaskCreate (feature_id task) d (priority task)) w
         = (w', Ok resp).
Proof.
  intros Hrun. exists (new_task_of task (clock w (ticks w))).
  assert (Hd : ∀ d, create_task (mkTaskCreate (feature_id task) d (priority task)) w
                    = create_task task w).
  { intros d. rewrite !create_task_run. reflexivity. }
  pose proof Hrun as Hsame.
  rewrite create_task_run in Hrun. cbv zeta in Hrun.
  destruct (feature_ids _) as [e|ids]; [done|].
  destruct (py_in_str _ ids); [|done].
  destruct (dict_get "queue" (JArr []) _) as [| | | |items|] eqn:Hq;
    simpl in Hrun; try done.
  injection Hrun as <- <-. split; [done|]. split; [|split; [done|]].
  - unfold persisted_queue, document; simpl.
    rewrite lookup_insert_eq; simpl. rewrite dict_get_set_eq.
    by rewrite last_snoc.
  - intros d. by rewrite Hd.
Qed.

Lemma create_task_drops_description_witness :
  let task := mkTaskCreate "F2" (Some "refactor the parser") None in
  ∃ w' resp,
    create_task task example_world = (w', Ok resp) ∧
    create_task (mkTaskCreate "F2" None None) example_world = (w', Ok resp) ∧
    last (persisted_queue w')
    = Some (JObj [("feature_id", JStr "F2"); ("status", JStr "pending");
                  ("created_at", JStr "t0"); ("priority", JNull)]).
Proof.
  intros task.
  destruct (create_task task example_world) as [w' r] eqn:Hrun.
  assert (Hr : r = Ok [("status", JStr "created");
                       ("task", JObj (new_task_of task "t0"))]).
  { vm_compute in Hrun. by injection Hrun as _ <-. }
  subst r. exists w', [("status", JStr "created");
                       ("task", JObj (new_task_of task "t0"))].
  destruct (create_task_drops_description task example_world w' _ Hrun)
    as (new_task & Hresp & Hlast & _ & Hd).
  split; [done|]. split; [apply (Hd None)|].
  injection Hresp as <-. exact Hlast.
Defined.

(** C10: without a queue file, loading gives the empty document, and
    [create_task] for a feature of the catalog succeeds and saves the
    document whose only field is [queue], holding the new task alone. *)
Theorem create_task_without_queue_file
    (task : TaskCreate) (w : world) (ids : list json) :
  files w !! queue_file = None →
  feature_ids (document (files w) features_file) = Ok ids →
  py_in_str (feature_id task) ids = true →
  let new_task := new_task_of task (clock w (ticks w)) in
  load_json_file queue_file w = (w, Ok []) ∧
  ∃ w', create_task task w
          = (w', Ok [("status", JStr "created"); ("task", JObj new_task)]) ∧
        files w' !! queue_file = Some [("queue", JArr [JObj new_task])].
Proof.
  intros Hnone Hids Hin new_task.
  assert (Hdoc : document (files w) queue_file = []).
  { unfold document. by rewrite Hnone. }
  split.
  - unfold load_json_file. by rewrite Hdoc.
  - destruct (create_task_appends task w ids [] Hids Hin ltac:(by rewrite Hdoc))
      as (w' & Hrun & Hfiles & _).
    exists w'. split; [exact Hrun|].
    rewrite Hfiles, lookup_insert_eq, Hdoc. reflexivity.
Qed.

Lemma create_task_without_queue_file_witness :
  load_json_file queue_file example_world = (example_world, Ok []) ∧
  ∃ w', create_task (TaskCreate_default "F1") example_world
          = (w', Ok [("status", JStr "created");
                     ("task", JObj (new_task_of (TaskCreate_default "F1") "t0"))]) ∧
        files w' !! queue_file
          = Some [("queue", JArr [JObj (new_task_of (TaskCreate_default "F1") "t0")])].
Proof.
  apply (create_task_without_queue_file (TaskCreate_default "F1") example_world
           [JStr "F1"; JStr "F2"]); reflexivity.
Defined.

Lemma update_loop_no_task fid update queue items i rest (w : world) :
  no_task_for fid rest = true →
  update_loop fid update queue items i rest w
    = (w, Raise (HTTPException 404 "Task not found")).
Proof.
  revert i. induction rest as [|t rest IH]; intros i Hno; [done|].
  simpl in Hno. apply andb_prop in Hno as [Ht Hrest].
  destruct t as [| | | | |d]; try done.
  cbn [update_loop].
  apply negb_true_iff in Ht. rewrite Ht. by apply IH.
Qed.

Lemma update_loop_first_match fid update queue items i pre t post (w : world) :
  no_task_for fid pre = true →
  py_eq_str fid (dict_get "feature_id" JNull t) = true →
  let t' := dict_set "updated_at" (JStr (clock w (ticks w)))
              (dict_set "status" (JStr (new_status update)) t) in
  update_loop fid update queue items i (pre ++ JObj t :: post) w
    = (mkWorld
         (append_audit
            (AuditEntry (clock w (S (ticks w))) "task_updated"
               [("feature_id", JStr fid);
                ("old_status", dict_get "status" JNull t);
                ("new_status", JStr (new_status update))])
            (agent_state w))
         (<[queue_file :=
              dict_set "queue" (JArr (<[i + length pre := JObj t']> items)) queue]>
            (files w))
         (clock w) (S (S (ticks w))),
       Ok [("status", JStr "updated"); ("task", JObj t')]).
Proof.
  intros Hno Hmatch t'. revert i.
  induction pre as [|p pre IH]; intros i.
  - cbn [app update_loop].
    rewrite Hmatch. cbn [length]. rewrite Nat.add_0_r. reflexivity.
  - simpl in Hno. apply andb_prop in Hno as [Hp Hpre].
    destruct p as [| | | | |d]; try done.
    cbn [app update_loop].
    apply negb_true_iff in Hp. rewrite Hp.
    rewrite (IH Hpre (S i)). cbn [length].
    by replace (S i + length pre) with (i + S (length pre)) by lia.
Qed.

Lemma update_task_missing (fid : string) (update : TaskUpdate) (w : world)
    (items : list json) :
  dict_get "queue" (JArr []) (document (files w) queue_file) = JArr items →
  no_task_for fid items = true →
  update_task fid update w = (w, Raise (HTTPException 404 "Task not found")).
Proof.
  intros Hitems Hno.
  unfold update_task, bind at 1, load_json_file.
  unfold bind at 1, lift. rewrite Hitems. cbn [py_iter].
  by apply update_loop_no_task.
Qed.

Lemma update_task_hit (fid : string) (update : TaskUpdate) (w : world)
    (pre : list json) (t : dict) (post : list json) :
  let doc := document (files w) queue_file in
  dict_get "queue" (JArr []) doc = JArr (pre ++ JObj t :: post) →
  no_task_for fid pre = true →
  py_eq_str fid (dict_get "feature_id" JNull t) = true →
  let t' := dict_set "updated_at" (JStr (clock w (ticks w)))
              (dict_set "status" (JStr (new_status update)) t) in
  ∃ w', update_task fid update w
          = (w', Ok [("status", JStr "updated"); ("task", JObj t')]) ∧
        files w' = <[queue_file :=
                      dict_set "queue" (JArr (pre ++ JObj t' :: post)) doc]>
                   (files w) ∧
        persisted_queue w' = pre ++ JObj t' :: post.
Proof.
  intros doc Hitems Hno Hmatch t'.
  unfold update_task, bind at 1, load_json_file. fold doc.
  unfold bind at 1, lift. rewrite Hitems. cbn [py_iter].
  rewrite (update_loop_first_match _ _ _ _ 0 pre t post w Hno Hmatch).
  cbv zeta. fold t'.
  replace (0 + length pre) with (length pre + 0) by lia.
  rewrite insert_app_r. cbn [insert list_insert].
  eexists. split; [reflexivity|]. split; [reflexivity|].
  unfold persisted_queue, document; simpl.
  rewrite lookup_insert_eq; simpl. by rewrite dict_get_set_eq.
Qed.

(** C6: when the queue holds no task for the feature id, [update_task]
    raises the 404 of a missing task and the world, files included, is
    the one before the call; when it holds one, the first such task, and
    no other, gets the new status and the clock reading as [updated_at],
    and the document is saved. *)
Theorem update_task_first_match (fid : string) (update : TaskUpdate) (w : world) :
  let doc := document (files w) queue_file in
  (∀ items, dict_get "queue" (JArr []) doc = JArr items →
     no_task_for fid items = true →
     update_task fid update w
       = (w, Raise (HTTPException 404 "Task not found"))) ∧
  (∀ pre t post,
     dict_get "queue" (JArr []) doc = JArr (pre ++ JObj t :: post) →
     no_task_for fid pre = true →
     py_eq_str fid (dict_get "feature_id" JNull t) = true →
     let t' := dict_set "updated_at" (JStr (clock w (ticks w)))
                 (dict_set "status" (JStr (new_status update)) t) in
     ∃ w', update_task fid update w
             = (w', Ok [("status", JStr "updated"); ("task", JObj t')]) ∧
           files w' = <[queue_file :=
                         dict_set "queue" (JArr (pre ++ JObj t' :: post)) doc]>
                      (files w) ∧
           persisted_queue w' = pre ++ JObj t' :: post).
Proof.
  intros doc. split.
  - intros items. apply update_task_missing.
  - intros pre t post. apply update_task_hit.
Qed.

Lemma update_task_first_match_witness :
  update_task "F3" (mkTaskUpdate "done") example_queue_world
    = (example_queue_world, Raise (HTTPException 404 "Task not found")) ∧
  ∃ w', (update_task "F2" (mkTaskUpdate "done") example_queue_world).1 = w' ∧
        persisted_queue w'
        = [example_task "F1" "pending";
           JObj [("feature_id", JStr "F2"); ("status", JStr "done");
                 ("created_at", JStr "t0"); ("priority", JStr "normal");
                 ("updated_at", JStr "t7")];
           example_task "F2" "blocked"].
Proof.
  destruct (update_task_first_match "F3" (mkTaskUpdate "done") example_queue_world)
    as [Hmiss _].
  destruct (update_task_first_match "F2" (mkTaskUpdate "done") example_queue_world)
    as [_ Hhit].
  split.
  - by apply (Hmiss [example_task "F1" "pending"; example_task "F2" "pending";
                     example_task "F2" "blocked"]).
  - destruct (Hhit [example_task "F1" "pending"]
                [("feature_id", JStr "F2"); ("status", JStr "pending");
                 ("created_at", JStr "t0"); ("priority", JStr "normal")]
                [example_task "F2" "blocked"] eq_refl eq_refl eq_refl)
      as (w' & Hrun & _ & Hq).
    exists w'. split; [by rewrite Hrun | exact Hq].
Defined.

End TaskQueue.

(** ** Requests in flight together *)

Section EventLoop.

Lemma created_tasks_length clk t calls :
  length (created_tasks clk t calls) = length calls.
Proof.
  revert t. induction calls as [|c calls IH]; intros t; simpl;
    [done | by rewrite IH].
Qed.

Lemma created_tasks_elem clk t calls task :
  task ∈ calls → ∃ now, JObj (new_task_of task now) ∈ created_tasks clk t calls.
Proof.
  revert t. induction calls as [|c calls IH]; intros t Hin.
  - by apply elem_of_nil in Hin.
  - apply elem_of_cons in Hin as [->|Hin]; simpl.
    + exists (clk t). apply elem_of_cons. by left.
    + destruct (IH (S (S t)) Hin) as [now Hnow].
      exists now. apply elem_of_cons. by right.
Qed.

Lemma filter_all_succeeded {A} (resps : list (result A)) :
  Forall (λ r, succeeded r = true) resps →
  filter (λ r, succeeded r = true) resps = resps.
Proof.
  induction 1 as [|r resps Hr _ IH]; [done|].
  by rewrite filter_cons_True, IH.
Qed.

Lemma queue_file_ne_features_file : queue_file ≠ features_file.
Proof. done. Qed.

(** Serving [create_task] calls for catalog features one after the
    other: every call succeeds and the queue grows by their tasks, in the
    order served. *)
Lemma serve_create_tasks (sched : list TaskCreate) (w : world)
    (ids items : list json) :
  feature_ids (document (files w) features_file) = Ok ids →
  Forall (λ task, py_in_str (feature_id task) ids = true) sched →
  dict_get "queue" (JArr []) (document (files w) queue_file) = JArr items →
  Forall (λ r, succeeded r = true) (serve (PostTask <$> sched) w).2 ∧
  length (serve (PostTask <$> sched) w).2 = length sched ∧
  persisted_queue (serve (PostTask <$> sched) w).1
    = items ++ created_tasks (clock w) (ticks w) sched.
Proof.
  revert w items. induction sched as [|task sched IH]; intros w items Hids Hall Hq.
  - simpl. rewrite app_nil_r. unfold persisted_queue. rewrite Hq. done.
  - apply Forall_cons in Hall as [Hin Hall].
    destruct (create_task_appends task w ids items Hids Hin Hq)
      as (w1 & Hrun & Hfiles & Hpq & Hclk & Hticks).
    assert (Hids1 : feature_ids (document (files w1) features_file) = Ok ids).
    { unfold document. rewrite Hfiles, lookup_insert_ne; [exact Hids|].
      exact queue_file_ne_features_file. }
    assert (Hq1 : dict_get "queue" (JArr [])
                    (document (files w1) queue_file)
                  = JArr (items ++ [JObj (new_task_of task (clock w (ticks w)))])).
    { unfold document. rewrite Hfiles, lookup_insert_eq. simpl.
      apply dict_get_set_eq. }
    destruct (IH w1 _ Hids1 Hall Hq1) as (Hsucc & Hlen & Hfinal).
    cbn [fmap list_fmap serve handle]. rewrite Hrun.
    destruct (serve (PostTask <$> sched) w1) as [w2 resps] eqn:Hserve.
    simpl in *. split; [|split].
    + by constructor.
    + by rewrite Hlen.
    + rewrite Hfinal, Hclk, Hticks, <- app_assoc. reflexivity.
Qed.

(** C8: the event loop runs each [create_task] call to completion, so
    whatever order it serves a set of calls for catalog features in,
    every call succeeds, the saved queue has one more task per call, and
    each call's task is in it. *)
Theorem concurrent_create_tasks_all_persisted
    (calls sched : list TaskCreate) (w : world) (ids items : list json) :
  feature_ids (document (files w) features_file) = Ok ids →
  Forall (λ task, py_in_str (feature_id task) ids = true) calls →
  dict_get "queue" (JArr []) (document (files w) queue_file) = JArr items →
  sched ≡ₚ calls →
  let w' := (serve (PostTask <$> sched) w).1 in
  let resps := (serve (PostTask <$> sched) w).2 in
  length (filter (λ r, succeeded r = true) resps) = length calls ∧
  length (persisted_queue w') = length items + length calls ∧
  (∀ task, task ∈ calls →
     ∃ now, JObj (new_task_of task now) ∈ persisted_queue w') ∧
  persisted_queue w' = items ++ created_tasks (clock w) (ticks w) sched.
Proof.
  intros Hids Hall Hq Hperm w' resps.
  assert (Hall' : Forall (λ task, py_in_str (feature_id task) ids = true) sched).
  { by rewrite Hperm. }
  destruct (serve_create_tasks sched w ids items Hids Hall' Hq)
    as (Hsucc & Hlen & Hfinal).
  fold w' in Hfinal. fold resps in Hsucc, Hlen.
  split; [|split; [|split]].
  - rewrite filter_all_succeeded by exact Hsucc.
    by rewrite Hlen, Hperm.
  - rewrite Hfinal, length_app, created_tasks_length. by rewrite Hperm.
  - intros task Htask. rewrite <- Hperm in Htask.
    destruct (created_tasks_elem (clock w) (ticks w) sched task Htask) as [now Hnow].
    exists now. rewrite Hfinal. apply elem_of_app. by right.
  - exact Hfinal.
Qed.

Lemma concurrent_create_tasks_all_persisted_witness :
  let f1 := TaskCreate_default "F1" in
  let f2 := TaskCreate_default "F2" in
  let w' := (serve [PostTask f2; PostTask f1] example_world).1 in
  length (persisted_queue w') = 2 ∧
  persisted_queue w' = [JObj (new_task_of f2 "t0"); JObj (new_task_of f1 "t2")].
Proof.
  intros f1 f2 w'.
  destruct (concurrent_create_tasks_all_persisted [f1; f2] [f2; f1] example_world
              [JStr "F1"; JStr "F2"] [])
    as (_ & Hlen & _ & Hq).
  - reflexivity.
  - repeat constructor.
  - reflexivity.
  - apply perm_swap.
  - split; [exact Hlen | exact Hq].
Defined.

End EventLoop.

(** ** Log streaming *)

Section StreamLogs.

Import EventStream.

Implicit Types (st : stream) (g : generator) (d : list string).

Lemma cursor_in_bounds st : in_bounds st → cursor (gen st) ≤ length (log_buffer st).
Proof. unfold in_bounds, cursor. destruct (pc (gen st)); lia. Qed.

Lemma take_sublist_take {A} (l : list A) (i j : nat) :
  i ≤ j → take i l `sublist_of` take j l.
Proof.
  intros Hij. replace (take i l) with (take i (take j l)).
  - apply sublist_take.
  - rewrite take_take. f_equal. lia.
Qed.

Lemma served_yield st d i hi line :
  served st d → cursor (gen st) ≤ i → S i ≤ hi → hi ≤ length (log_buffer st) →
  log_buffer st !! i = Some line →
  served (mkStream (log_buffer st)
                   (mkGenerator (last_idx (gen st)) (Yielded i hi))
                   (sent st ++ [frame line]))
         (d ++ [line]).
Proof.
  intros (Hsent & Hsub & _) Hcur Hhi Hlen Hline.
  split; [|split]; cbn.
  - by rewrite Hsent, fmap_app.
  - rewrite (take_S_r _ _ _ Hline). apply sublist_app; [|done].
    etrans; [exact Hsub|]. by apply take_sublist_take.
  - done.
Qed.

Lemma step_served e st d :
  served st d →
  ∃ st' d', step e st = Ok st' ∧ served st' d' ∧
            log_buffer st' = log_buffer st ++ published [e].
Proof.
  intros Hserved. pose proof Hserved as (Hsent & Hsub & Hin).
  pose proof (cursor_in_bounds st Hin) as Hcur.
  destruct e as [line|]; cbn [step published].
  - exists (mkStream (publish line (log_buffer st)) (gen st) (sent st)), d.
    split; [done|]. split; [|done].
    split; [done|]. unfold publish; cbn. split.
    + by rewrite take_app_le.
    + unfold in_bounds in *; cbn. rewrite length_app; cbn.
      destruct (pc (gen st)); lia.
  - rewrite app_nil_r. unfold resume, yield_at.
    unfold in_bounds in Hin. unfold cursor in Hcur.
    destruct (pc (gen st)) as [|i hi] eqn:Hpc.
    + case_decide as Hnew.
      * destruct (lookup_lt_is_Some_2 (log_buffer st) (last_idx (gen st)) Hnew)
          as [line Hline].
        rewrite Hline. eexists _, (d ++ [line]). split; [done|]. split; [|done].
        apply served_yield; try done; unfold cursor; rewrite Hpc; lia.
      * exists (mkStream (log_buffer st) (gen st) (sent st ++ [])), d.
        split; [done|]. split; [|done]. rewrite app_nil_r.
        split; [done|]. split; [done|]. unfold in_bounds; cbn. by rewrite Hpc.
    + case_decide as Hmore.
      * destruct (lookup_lt_is_Some_2 (log_buffer st) (S i) ltac:(lia))
          as [line Hline].
        rewrite Hline. eexists _, (d ++ [line]). split; [done|]. split; [|done].
        apply served_yield; try done; unfold cursor; try rewrite Hpc; lia.
      * eexists _, d. split; [done|]. split; [|done].
        split; [by rewrite app_nil_r|]. split; cbn.
        -- etrans; [exact Hsub|]. unfold cursor. rewrite Hpc.
           apply take_sublist_take. lia.
        -- unfold in_bounds; cbn. lia.
Qed.

Lemma run_served sched st d :
  served st d →
  ∃ st' d', run sched st = Ok st' ∧ served st' d' ∧
            log_buffer st' = log_buffer st ++ published sched.
Proof.
  revert st d. induction sched as [|e sched IH]; intros st d Hserved.
  - exists st, d. by rewrite app_nil_r.
  - destruct (step_served e st d Hserved) as (st1 & d1 & Hstep & Hserved1 & Hbuf1).
    destruct (IH st1 d1 Hserved1) as (st' & d' & Hrun & Hserved' & Hbuf').
    exists st', d'. cbn [run]. rewrite Hstep. split; [done|]. split; [done|].
    rewrite Hbuf', Hbuf1, <- app_assoc. f_equal. by destruct e.
Qed.

Lemma iterating_served backlog : served (iterating backlog) [].
Proof.
  split; [done|]. split; [apply sublist_nil_l|]. unfold in_bounds; cbn. lia.
Qed.

Lemma caught_up_yield st i line :
  sent st = frame <$> take i (log_buffer st) →
  log_buffer st !! i = Some line →
  caught_up (mkStream (log_buffer st)
               (mkGenerator (last_idx (gen st)) (Yielded i (length (log_buffer st))))
               (sent st ++ [frame line])).
Proof.
  intros Hsent Hline. split; cbn.
  - rewrite (take_S_r _ _ _ Hline), fmap_app, Hsent. reflexivity.
  - split; [|done]. by apply lookup_lt_Some in Hline.
Qed.

Lemma iterating_caught_up backlog : caught_up (iterating backlog).
Proof. split; cbn; [done | lia]. Qed.

(** C1: no subscriber session of [stream_logs] delivers a frame.  Whatever
    [log_buffer] holds when the subscriber connects and whatever is
    published afterwards, iterating the body of the response raises
    [TypeError], because the body is the function [event_generator] and not
    the generator it returns; the subscriber has then received nothing.
    The generator the function would return starts at cursor 0. *)
Theorem stream_logs_sends_no_frame (backlog : list string) (sched : list event) :
  session backlog sched = Raise TypeError ∧
  received backlog sched = [] ∧
  last_idx event_generator = 0.
Proof. done. Qed.

End StreamLogs.

(** ** Reported failures *)

Section Failures.

Lemma control_agent_unknown_action (c : AgentControl) (w : world) :
  action c ≠ "start" → action c ≠ "pause" →
  action c ≠ "resume" → action c ≠ "stop" →
  control_agent c w = (w, Raise (HTTPException 400 "Invalid action")).
Proof.
  intros H1 H2 H3 H4. unfold control_agent.
  apply String.eqb_neq in H1, H2, H3, H4. by rewrite H1, H2, H3, H4.
Qed.

Lemma control_agent_raises (c : AgentControl) (w : world) (e : exn) :
  (control_agent c w).2 = Raise e →
  e = HTTPException 400 "Agent not running" ∨
  e = HTTPException 400 "Agent not paused" ∨
  e = HTTPException 400 "Invalid action".
Proof.
  unfold control_agent.
  destruct (String.eqb (action c) "start"); [done|].
  destruct (String.eqb (action c) "pause").
  { unfold bind, get_agent. destruct (negb _); cbn; [|done].
    intros [= <-]. by left. }
  destruct (String.eqb (action c) "resume").
  { unfold bind, get_agent. destruct (negb _); cbn; [|done].
    intros [= <-]. right. by left. }
  destruct (String.eqb (action c) "stop"); [done|].
  cbn. intros [= <-]. right. by right.
Qed.

Lemma create_task_raises (task : TaskCreate) (w : world) (c : nat) (d : string) :
  (create_task task w).2 = Raise (HTTPException c d) →
  c = 404 ∧ d = "Feature not found".
Proof.
  rewrite create_task_run. cbv zeta.
  destruct (feature_ids _) as [e|ids] eqn:Hids.
  - cbn. intros [= ->]. exfalso. revert Hids. unfold feature_ids.
    destruct (py_iter _) as [e|fs] eqn:Hiter.
    + destruct (dict_get _ _ _); cbn in Hiter; congruence.
    + clear Hiter. revert c d. induction fs as [|f fs IH]; intros c d; [done|].
      cbn. destruct f; cbn; try done.
      destruct (collect_ids fs) as [e|vs]; [|done].
      intros [= ->]. by eapply IH.
  - destruct (py_in_str _ ids); cbn.
    + destruct (dict_get "queue" _ _); cbn; done.
    + by intros [= <- <-].
Qed.

Lemma update_loop_raises fid update queue items i rest (w : world) c d :
  (update_loop fid update queue items i rest w).2 = Raise (HTTPException c d) →
  c = 404 ∧ d = "Task not found".
Proof.
  revert i. induction rest as [|t rest IH]; intros i.
  - cbn. by intros [= <- <-].
  - cbn [update_loop].
    destruct t as [| | | | |t]; try done.
    destruct (py_eq_str fid _); [done | apply IH].
Qed.

Lemma update_task_raises fid update (w : world) c d :
  (update_task fid update w).2 = Raise (HTTPException c d) →
  c = 404 ∧ d = "Task not found".
Proof.
  unfold update_task, bind at 1, load_json_file. unfold bind at 1, lift.
  destruct (py_iter _) as [e|items] eqn:Hiter.
  - destruct (dict_get _ _ _); cbn in Hiter; try done; by intros [= ->].
  - apply update_loop_raises.
Qed.

Lemma create_task_with_store (task : TaskCreate) :
  create_task_with load_json_file save_json_file task = create_task task.
Proof. reflexivity. Qed.

Lemma update_loop_with_store (save : string → dict → M unit)
    fid update queue items i rest (w : world) :
  (∀ name data w', save name data w' = save_json_file name data w') →
  update_loop_with save fid update queue items i rest w
    = update_loop fid update queue items i rest w.
Proof.
  intros Hsave. revert i. induction rest as [|t rest IH]; intros i; [done|].
  cbn [update_loop_with update_loop]. destruct t; try done.
  destruct (py_eq_str _ _); [|apply IH].
  unfold bind at 1 4, utcnow. unfold bind at 1 3. by rewrite Hsave.
Qed.

Lemma load_json_file_on_readable (f : faults) (filename : string) (w : world) :
  unreadable f filename = false →
  load_json_file_on f filename w = load_json_file filename w.
Proof.
  intros Hr. unfold load_json_file_on, load_json_file, document.
  destruct (files w !! filename); [by rewrite Hr | done].
Qed.

(** With no fault, the handlers over the faulty store are the handlers. *)
Lemma create_task_on_healthy (task : TaskCreate) (w : world) :
  create_task_on healthy task w = create_task task w.
Proof.
  unfold create_task_on, create_task_with, create_task, bind.
  rewrite load_json_file_on_readable by done.
  unfold load_json_file at 1 3. cbv beta iota.
  rewrite load_json_file_on_readable by done.
  reflexivity.
Qed.

Lemma update_task_on_healthy fid update (w : world) :
  update_task_on healthy fid update w = update_task fid update w.
Proof.
  unfold update_task_on, update_task_with, update_task.
  unfold bind at 1 3. rewrite load_json_file_on_readable by done.
  unfold load_json_file. unfold bind at 1 2, lift.
  destruct (py_iter _) as [e|items]; [done|].
  by apply update_loop_with_store.
Qed.

Lemma update_task_on_unreadable (f : faults) fid update (w : world) (d : dict) :
  files w !! queue_file = Some d → unreadable f queue_file = true →
  update_task_on f fid update w = (w, Raise OSError).
Proof.
  intros Hfile Hr.
  unfold update_task_on, update_task_with, bind at 1, load_json_file_on.
  by rewrite Hfile, Hr.
Qed.

Lemma create_task_on_unreadable (f : faults) task (w : world) (d : dict) :
  files w !! queue_file = Some d → unreadable f queue_file = true →
  create_task_on f task w = (w, Raise OSError).
Proof.
  intros Hfile Hr.
  unfold create_task_on, create_task_with, bind at 1, load_json_file_on.
  by rewrite Hfile, Hr.
Qed.

Lemma create_task_on_unwritable (f : faults) (task : TaskCreate) (w : world)
    (ids items : list json) :
  unreadable f queue_file = false → unreadable f features_file = false →
  unwritable f queue_file = true →
  feature_ids (document (files w) features_file) = Ok ids →
  py_in_str (feature_id task) ids = true →
  dict_get "queue" (JArr []) (document (files w) queue_file) = JArr items →
  create_task_on f task w
    = (mkWorld (agent_state w) (files w) (clock w) (S (ticks w)), Raise OSError).
Proof.
  intros Hrq Hrf Hw Hids Hin Hq.
  unfold create_task_on, create_task_with, bind.
  rewrite load_json_file_on_readable by done.
  unfold load_json_file at 1. cbv beta iota.
  rewrite load_json_file_on_readable by done.
  unfold load_json_file, lift. rewrite Hids, Hin. cbn [negb utcnow].
  unfold dict_contains, dict_getitem. unfold dict_get in Hq.
  destruct (dict_lookup "queue" (document (files w) queue_file)) as [v|] eqn:Hl; cbn.
  - rewrite Hl, Hq. cbn. unfold save_json_file_on. by rewrite Hw.
  - rewrite dict_lookup_set_eq. cbn. unfold save_json_file_on. by rewrite Hw.
Qed.

Lemma update_task_on_unwritable (f : faults) fid update (w : world)
    (pre : list json) (t : dict) (post : list json) :
  unreadable f queue_file = false → unwritable f queue_file = true →
  dict_get "queue" (JArr []) (document (files w) queue_file)
    = JArr (pre ++ JObj t :: post) →
  no_task_for fid pre = true →
  py_eq_str fid (dict_get "feature_id" JNull t) = true →
  update_task_on f fid update w
    = (mkWorld (agent_state w) (files w) (clock w) (S (ticks w)), Raise OSError).
Proof.
  intros Hr Hw Hq Hno Hmatch.
  unfold update_task_on, update_task_with, bind at 1.
  rewrite load_json_file_on_readable by done.
  unfold load_json_file, bind at 1, lift. rewrite Hq. cbn [py_iter]. clear Hq.
  generalize 0. generalize (pre ++ JObj t :: post) at 1 as items.
  induction pre as [|p pre IH]; intros items i.
  - cbn [app update_loop_with]. rewrite Hmatch.
    unfold bind, utcnow, save_json_file_on. by rewrite Hw.
  - cbn in Hno. apply andb_prop in Hno as [Hp Hpre].
    destruct p as [| | | | |d]; try done.
    cbn [app update_loop_with]. apply negb_true_iff in Hp. rewrite Hp.
    by apply IH.
Qed.

(** C7: each of the five error kinds is reported by a failure of its own,
    so that failures of two different kinds differ.  An invalid transition,
    an unknown action, a missing feature and a missing task are raised as
    an [HTTPException] whose status code and detail tell the kind; a file
    that cannot be opened, for reading or for writing, makes [create_task]
    and [update_task] let the [OSError] through, with nothing saved and
    nothing audited. *)
Theorem failures_tell_error_kinds (w : world) :
  (∀ c, action c = "pause" → status (agent_state w) ≠ "running" →
     ∃ e, control_agent c w = (w, Raise e) ∧ kind_of e = Some InvalidTransition) ∧
  (∀ c, action c = "resume" → status (agent_state w) ≠ "paused" →
     ∃ e, control_agent c w = (w, Raise e) ∧ kind_of e = Some InvalidTransition) ∧
  (∀ c, action c ≠ "start" → action c ≠ "pause" →
        action c ≠ "resume" → action c ≠ "stop" →
     ∃ e, control_agent c w = (w, Raise e) ∧ kind_of e = Some UnknownAction) ∧
  (∀ task ids,
     feature_ids (document (files w) features_file) = Ok ids →
     py_in_str (feature_id task) ids = false →
     ∃ e, create_task task w = (w, Raise e) ∧ kind_of e = Some FeatureNotFound) ∧
  (∀ fid update items,
     dict_get "queue" (JArr []) (document (files w) queue_file) = JArr items →
     no_task_for fid items = true →
     ∃ e, update_task fid update w = (w, Raise e) ∧ kind_of e = Some TaskNotFound) ∧
  (∀ f task fid update d,
     files w !! queue_file = Some d → unreadable f queue_file = true →
     ∃ e, create_task_on f task w = (w, Raise e) ∧
          update_task_on f fid update w = (w, Raise e) ∧
          kind_of e = Some IOError) ∧
  (∀ f task ids items,
     unreadable f queue_file = false → unreadable f features_file = false →
     unwritable f queue_file = true →
     feature_ids (document (files w) features_file) = Ok ids →
     py_in_str (feature_id task) ids = true →
     dict_get "queue" (JArr []) (document (files w) queue_file) = JArr items →
     ∃ e w', create_task_on f task w = (w', Raise e) ∧ kind_of e = Some IOError ∧
             files w' = files w ∧ agent_state w' = agent_state w) ∧
  (∀ f fid update pre t post,
     unreadable f queue_file = false → unwritable f queue_file = true →
     dict_get "queue" (JArr []) (document (files w) queue_file)
       = JArr (pre ++ JObj t :: post) →
     no_task_for fid pre = true →
     py_eq_str fid (dict_get "feature_id" JNull t) = true →
     ∃ e w', update_task_on f fid update w = (w', Raise e) ∧ kind_of e = Some IOError ∧
             files w' = files w ∧ agent_state w' = agent_state w) ∧
  (∀ e1 e2 k1 k2,
     kind_of e1 = Some k1 → kind_of e2 = Some k2 → k1 ≠ k2 → e1 ≠ e2).
Proof.
  split; [|split; [|split; [|split; [|split; [|split; [|split; [|split]]]]]]].
  - intros c Hact Hst. eexists. split.
    + by apply control_agent_pause_rejected.
    + done.
  - intros c Hact Hst. eexists. split.
    + by apply control_agent_resume_rejected.
    + done.
  - intros c H1 H2 H3 H4. eexists. split.
    + by apply control_agent_unknown_action.
    + done.
  - intros task ids Hids Hin. eexists. split.
    + by apply (create_task_missing_feature task w ids).
    + done.
  - intros fid update items Hitems Hno. eexists. split.
    + by apply (update_task_missing fid update w items).
    + done.
  - intros f task fid update d Hfile Hr. exists OSError. split; [|split].
    + by apply (create_task_on_unreadable f task w d).
    + by apply (update_task_on_unreadable f fid update w d).
    + done.
  - intros f task ids items Hrq Hrf Hw Hids Hin Hq. eexists _, _. split.
    + by apply (create_task_on_unwritable f task w ids items).
    + done.
  - intros f fid update pre t post Hr Hw Hq Hno Hmatch. eexists _, _. split.
    + by apply (update_task_on_unwritable f fid update w pre t post).
    + done.
  - intros e1 e2 k1 k2 H1 H2 Hne ->. congruence.
Qed.

Lemma failures_tell_error_kinds_witness :
  (∃ e, control_agent (mkAgentControl "pause" None None) example_world
          = (example_world, Raise e) ∧
        kind_of e = Some InvalidTransition) ∧
  (∃ e, control_agent (mkAgentControl "restart" None None) example_world
          = (example_world, Raise e) ∧
        kind_of e = Some UnknownAction) ∧
  (∃ e, create_task (TaskCreate_default "F9") example_world
          = (example_world, Raise e) ∧
        kind_of e = Some FeatureNotFound) ∧
  (∃ e, update_task "F3" (mkTaskUpdate "done") example_queue_world
          = (example_queue_world, Raise e) ∧
        kind_of e = Some TaskNotFound) ∧
  (∃ e, update_task_on queue_unreadable "F1" (mkTaskUpdate "done") example_queue_world
          = (example_queue_world, Raise e) ∧
        kind_of e = Some IOError) ∧
  (∃ e w', create_task_on queue_read_only (TaskCreate_default "F1") example_world
             = (w', Raise e) ∧
           kind_of e = Some IOError ∧ files w' = files example_world).
Proof.
  destruct (failures_tell_error_kinds example_world)
    as (Hp & _ & Hu & Hf & _ & _ & Hw & _).
  destruct (failures_tell_error_kinds example_queue_world)
    as (_ & _ & _ & _ & Ht & Hr & _).
  split; [|split; [|split; [|split; [|split]]]].
  - apply Hp; [reflexivity | simpl; congruence].
  - apply Hu; simpl; congruence.
  - apply (Hf _ [JStr "F1"; JStr "F2"]); reflexivity.
  - apply (Ht _ _ [example_task "F1" "pending"; example_task "F2" "pending";
                   example_task "F2" "blocked"]); reflexivity.
  - destruct (Hr queue_unreadable (TaskCreate_default "F1") "F1" (mkTaskUpdate "done")
                [("queue", JArr [example_task "F1" "pending";
                                 example_task "F2" "pending";
                                 example_task "F2" "blocked"])] eq_refl eq_refl)
      as (e & _ & Hupd & Hk).
    by exists e.
  - destruct (Hw queue_read_only (TaskCreate_default "F1") [JStr "F1"; JStr "F2"] []
                eq_refl eq_refl eq_refl eq_refl eq_refl eq_refl)
      as (e & w' & Hrun & Hk & Hfiles & _).
    by exists e, w'.
Defined.

(** The HTTP status code alone does not tell the kinds apart, the detail
    does: an invalid transition and an unknown action are both raised with
    400, a missing feature and a missing task both with 404. *)
Lemma status_code_shared_by_error_kinds :
  ∃ e1 e2 e3 e4,
    control_agent (mkAgentControl "pause" None None) example_world
      = (example_world, Raise e1) ∧
    control_agent (mkAgentControl "restart" None None) example_world
      = (example_world, Raise e2) ∧
    create_task (TaskCreate_default "F9") example_world
      = (example_world, Raise e3) ∧
    update_task "F9" (mkTaskUpdate "done") example_world
      = (example_world, Raise e4) ∧
    kind_of e1 = Some InvalidTransition ∧ kind_of e2 = Some UnknownAction ∧
    kind_of e3 = Some FeatureNotFound ∧ kind_of e4 = Some TaskNotFound ∧
    status_code_of e1 = status_code_of e2 ∧
    status_code_of e3 = status_code_of e4.
Proof. eexists _, _, _, _. repeat split. Qed.

End Failures.

(** * Further properties *)

(** ** The lifecycle as a whole *)

Section Lifecycle.

Lemma control_agent_start (c : AgentControl) (w : world) :
  action c = "start" →
  control_agent c w =
    (mkWorld
       (append_audit
          (AuditEntry (clock w (S (ticks w))) "agent_started"
             [("role", opt_json (role c));
              ("feature_id", opt_json (control_feature_id c))])
          {| status := "running"; current_role := role c;
             current_feature := control_feature_id c;
             started_at := Some (clock w (ticks w));
             logs := logs (agent_state w);
             audit_log := audit_log (agent_state w) |})
       (files w) (clock w) (S (S (ticks w))),
     Ok [("status", JStr "running")]).
Proof. intros Hact. unfold control_agent. rewrite Hact. reflexivity. Qed.

Lemma control_agent_pause (c : AgentControl) (w : world) :
  action c = "pause" → status (agent_state w) = "running" →
  control_agent c w =
    (mkWorld
       (append_audit (AuditEntry (clock w (ticks w)) "agent_paused" [])
          (set_status "paused" (agent_state w)))
       (files w) (clock w) (S (ticks w)),
     Ok [("status", JStr "paused")]).
Proof.
  intros Hact Hst. unfold control_agent. rewrite Hact. simpl.
  unfold bind at 1, get_agent. rewrite Hst. reflexivity.
Qed.

Lemma control_agent_resume (c : AgentControl) (w : world) :
  action c = "resume" → status (agent_state w) = "paused" →
  control_agent c w =
    (mkWorld
       (append_audit (AuditEntry (clock w (ticks w)) "agent_resumed" [])
          (set_status "running" (agent_state w)))
       (files w) (clock w) (S (ticks w)),
     Ok [("status", JStr "running")]).
Proof.
  intros Hact Hst. unfold control_agent. rewrite Hact. simpl.
  unfold bind at 1, get_agent. rewrite Hst. reflexivity.
Qed.

Lemma control_agent_stop_run (c : AgentControl) (w : world) :
  action c = "stop" →
  control_agent c w =
    (mkWorld
       (append_audit (AuditEntry (clock w (ticks w)) "agent_stopped" [])
          {| status := "idle"; current_role := None; current_feature := None;
             started_at := started_at (agent_state w);
             logs := logs (agent_state w);
             audit_log := audit_log (agent_state w) |})
       (files w) (clock w) (S (ticks w)),
     Ok [("status", JStr "idle")]).
Proof. intros Hact. unfold control_agent. rewrite Hact. reflexivity. Qed.

(** The four ways an action string is read, and the rest. *)
Lemma action_cases (a : string) :
  a = "start" ∨ a = "pause" ∨ a = "resume" ∨ a = "stop" ∨
  (a ≠ "start" ∧ a ≠ "pause" ∧ a ≠ "resume" ∧ a ≠ "stop").
Proof.
  destruct (decide (a = "start")); [by left|].
  destruct (decide (a = "pause")); [by right; left|].
  destruct (decide (a = "resume")); [by right; right; left|].
  destruct (decide (a = "stop")); [by right; right; right; left|].
  by right; right; right; right.
Qed.

(** X1: [control_agent] follows the transition table.  Where the table
    allows the action, the call succeeds, the status after it and the
    status in the response are the table's, and one audit entry with the
    action's name is appended; where it does not, the call raises a 400
    and changes nothing. *)
Theorem control_agent_refines_transition_table (c : AgentControl) (w : world) :
  match transition_table (action c) (status (agent_state w)) with
  | Some s' =>
      ∃ w' now details,
        control_agent c w = (w', Ok [("status", JStr s')]) ∧
        status (agent_state w') = s' ∧
        audit_log (agent_state w')
          = py_last 100 (audit_log (agent_state w)
                         ++ [AuditEntry now (audit_action (action c)) details])
  | None => ∃ detail, control_agent c w = (w, Raise (HTTPException 400 detail))
  end.
Proof.
  destruct (action_cases (action c)) as [Ha|[Ha|[Ha|[Ha|(H1 & H2 & H3 & H4)]]]].
  - rewrite Ha. cbn. rewrite (control_agent_start c w Ha).
    eexists _, _, _. split; [done|]. split; [done|].
    cbn [agent_state]. by rewrite append_audit_log.
  - rewrite Ha. cbn.
    destruct (String.eqb_spec (status (agent_state w)) "running") as [Hst|Hst].
    + rewrite (control_agent_pause c w Ha Hst).
      eexists _, _, _. split; [done|]. split; [done|].
      cbn [agent_state]. by rewrite append_audit_log.
    + eexists. by apply control_agent_pause_rejected.
  - rewrite Ha. cbn.
    destruct (String.eqb_spec (status (agent_state w)) "paused") as [Hst|Hst].
    + rewrite (control_agent_resume c w Ha Hst).
      eexists _, _, _. split; [done|]. split; [done|].
      cbn [agent_state]. by rewrite append_audit_log.
    + eexists. by apply control_agent_resume_rejected.
  - rewrite Ha. cbn. rewrite (control_agent_stop_run c w Ha).
    eexists _, _, _. split; [done|]. split; [done|].
    cbn [agent_state]. by rewrite append_audit_log.
  - unfold transition_table.
    apply String.eqb_neq in H1 as E1. apply String.eqb_neq in H2 as E2.
    apply String.eqb_neq in H3 as E3. apply String.eqb_neq in H4 as E4.
    rewrite E1, E2, E3, E4.
    eexists. unfold control_agent. by rewrite E1, E2, E3, E4.
Qed.

(** X2: [pause] and then [resume] on a running agent bring it back as it
    was: status, role, feature, start time and files are those before the
    two calls, and the audit log has gained [agent_paused] and
    [agent_resumed], in this order. *)
Theorem pause_resume_round_trip (cp cr : AgentControl) (w : world) :
  action cp = "pause" → action cr = "resume" →
  status (agent_state w) = "running" →
  let w1 := (control_agent cp w).1 in
  let w2 := (control_agent cr w1).1 in
  (control_agent cp w).2 = Ok [("status", JStr "paused")] ∧
  (control_agent cr w1).2 = Ok [("status", JStr "running")] ∧
  status (agent_state w2) = status (agent_state w) ∧
  current_role (agent_state w2) = current_role (agent_state w) ∧
  current_feature (agent_state w2) = current_feature (agent_state w) ∧
  started_at (agent_state w2) = started_at (agent_state w) ∧
  files w2 = files w ∧
  audit_log (agent_state w2)
    = py_last 100 (audit_log (agent_state w)
                   ++ [AuditEntry (clock w (ticks w)) "agent_paused" [];
                       AuditEntry (clock w (S (ticks w))) "agent_resumed" []]).
Proof.
  intros Hp Hr Hst w1 w2. subst w1 w2.
  rewrite (control_agent_pause cp w Hp Hst). cbn [fst snd].
  rewrite (control_agent_resume cr) by done. cbn [fst snd agent_state files].
  repeat split; try done.
  rewrite !append_audit_log. cbn [audit_log set_status clock ticks].
  rewrite append_audit_log. cbn [audit_log set_status].
  rewrite py_last_app_l, <- app_assoc. reflexivity.
Qed.

Lemma pause_resume_round_trip_witness :
  let w := mkWorld example_running ∅ example_clock 1 in
  let w2 := (control_agent (mkAgentControl "resume" None None)
               (control_agent (mkAgentControl "pause" None None) w).1).1 in
  status (agent_state w2) = "running" ∧
  started_at (agent_state w2) = Some "t0" ∧
  action_of <$> audit_log (agent_state w2) = ["agent_paused"; "agent_resumed"].
Proof.
  intros w w2.
  destruct (pause_resume_round_trip (mkAgentControl "pause" None None)
              (mkAgentControl "resume" None None) w eq_refl eq_refl eq_refl)
    as (_ & _ & Hst & _ & _ & Hat & _ & Hlog).
  split; [exact Hst|]. split; [exact Hat|].
  etrans; [exact (f_equal (fmap action_of) Hlog) | reflexivity].
Defined.

(** X3: [start] and then [stop] leave an idle agent that still carries the
    start time: the status is [idle], role and feature are [None], and
    [started_at] is the clock reading [start] took. *)
Theorem start_stop_leaves_start_time (cs ct : AgentControl) (w : world) :
  action cs = "start" → action ct = "stop" →
  let w2 := (control_agent ct (control_agent cs w).1).1 in
  status (agent_state w2) = "idle" ∧
  current_role (agent_state w2) = None ∧
  current_feature (agent_state w2) = None ∧
  started_at (agent_state w2) = Some (clock w (ticks w)).
Proof.
  intros Hs Ht w2. subst w2.
  rewrite (control_agent_start cs w Hs). cbn [fst].
  rewrite (control_agent_stop_run ct _ Ht). done.
Qed.

Lemma start_stop_leaves_start_time_witness :
  let w := mkWorld initial_agent_state ∅ example_clock 4 in
  let w2 := (control_agent (mkAgentControl "stop" None None)
               (control_agent (mkAgentControl "start" (Some "coder") (Some "F1")) w).1).1 in
  status (agent_state w2) = "idle" ∧
  current_role (agent_state w2) = None ∧
  current_feature (agent_state w2) = None ∧
  started_at (agent_state w2) = Some "t4".
Proof.
  intros w w2.
  apply (start_stop_leaves_start_time
           (mkAgentControl "start" (Some "coder") (Some "F1"))
           (mkAgentControl "stop" None None) w); reflexivity.
Defined.

End Lifecycle.

(** ** What a request changes *)

Section Requests.

Lemma update_loop_cases fid update queue items i rest (w : world) :
  (∃ e, update_loop fid update queue items i rest w = (w, Raise e)) ∨
  (∃ pre t post,
     rest = pre ++ JObj t :: post ∧ no_task_for fid pre = true ∧
     py_eq_str fid (dict_get "feature_id" JNull t) = true).
Proof.
  revert i. induction rest as [|task rest IH]; intros i.
  - left. by eexists.
  - destruct task as [| | | | |t]; try (left; by eexists).
    cbn [update_loop].
    destruct (py_eq_str fid (dict_get "feature_id" JNull t)) eqn:Hmatch.
    + right. by exists [], t, rest.
    + destruct (IH (S i)) as [[e He]|(pre & t' & post & -> & Hno & Ht')].
      * left. by exists e.
      * right. exists (JObj t :: pre), t', post. split; [done|]. split; [|done].
        cbn. by rewrite Hmatch.
Qed.

Lemma update_loop_strings fid update queue items i rest (w : world) :
  Forall (λ t, ∃ s, t = JStr s) rest →
  ∃ e, update_loop fid update queue items i rest w = (w, Raise e).
Proof.
  intros [|t rest' [s ->] _]; by eexists.
Qed.

Lemma chars_strings s : Forall (λ t, ∃ s', t = JStr s') (chars s).
Proof. induction s; constructor; eauto. Qed.

Lemma update_task_cases fid update (w : world) :
  (∃ e, update_task fid update w = (w, Raise e)) ∨
  (∃ pre t post,
     dict_get "queue" (JArr []) (document (files w) queue_file)
       = JArr (pre ++ JObj t :: post) ∧
     no_task_for fid pre = true ∧
     py_eq_str fid (dict_get "feature_id" JNull t) = true).
Proof.
  unfold update_task, bind at 1, load_json_file. unfold bind at 1, lift.
  destruct (dict_get "queue" (JArr []) (document (files w) queue_file))
    as [| | |s|items|d] eqn:Hq; cbn [py_iter]; try (left; by eexists).
  - left. apply update_loop_strings, chars_strings.
  - destruct (update_loop_cases fid update (document (files w) queue_file)
                items 0 items w) as [He|(pre & t & post & -> & Hno & Ht)].
    + by left.
    + right. by exists pre, t, post.
  - left. apply update_loop_strings.
    apply Forall_fmap, Forall_forall. intros k _. by exists k.
Qed.

Lemma update_task_hit_world (fid : string) (update : TaskUpdate) (w : world)
    (pre : list json) (t : dict) (post : list json) :
  let doc := document (files w) queue_file in
  dict_get "queue" (JArr []) doc = JArr (pre ++ JObj t :: post) →
  no_task_for fid pre = true →
  py_eq_str fid (dict_get "feature_id" JNull t) = true →
  let t' := dict_set "updated_at" (JStr (clock w (ticks w)))
              (dict_set "status" (JStr (new_status update)) t) in
  update_task fid update w
    = (mkWorld
         (append_audit
            (AuditEntry (clock w (S (ticks w))) "task_updated"
               [("feature_id", JStr fid);
                ("old_status", dict_get "status" JNull t);
                ("new_status", JStr (new_status update))])
            (agent_state w))
         (<[queue_file := dict_set "queue" (JArr (pre ++ JObj t' :: post)) doc]>
            (files w))
         (clock w) (S (S (ticks w))),
       Ok [("status", JStr "updated"); ("task", JObj t')]).
Proof.
  intros doc Hitems Hno Hmatch t'.
  unfold update_task, bind at 1, load_json_file. fold doc.
  unfold bind at 1, lift. rewrite Hitems. cbn [py_iter].
  rewrite (update_loop_first_match _ _ _ _ 0 pre t post w Hno Hmatch).
  cbv zeta. fold t'.
  replace (0 + length pre) with (length pre + 0) by lia.
  by rewrite insert_app_r.
Qed.

Lemma handle_outcome (r : request) (w : world) :
  let w' := (handle r w).1 in
  clock w' = clock w ∧ ticks w ≤ ticks w' ∧
  logs (agent_state w') = logs (agent_state w) ∧
  (∀ name, name ≠ queue_file → files w' !! name = files w !! name) ∧
  match (handle r w).2 with
  | inl _ => agent_state w' = agent_state w ∧ files w' = files w
  | inr _ =>
      ∃ entry a,
        agent_state w' = append_audit entry a ∧
        audit_log a = audit_log (agent_state w) ∧
        timestamp entry = clock w (ticks w' - 1) ∧
        action_of entry = request_action r ∧
        match r with
        | PostControl c =>
            files w' = files w ∧
            transition_table (action c) (status (agent_state w)) = Some (status a)
        | _ =>
            status a = status (agent_state w) ∧
            current_role a = current_role (agent_state w) ∧
            current_feature a = current_feature (agent_state w) ∧
            started_at a = started_at (agent_state w)
        end
  end.
Proof.
  destruct r as [task|fid update|c]; cbn [handle].
  - rewrite create_task_run. cbv zeta.
    destruct (feature_ids _) as [e|ids]; [cbn; by repeat split|].
    destruct (py_in_str _ ids); [|cbn; by repeat split].
    destruct (py_append _ _) as [e|q]; cbn; [repeat split; (done || lia)|].
    split; [done|]. split; [lia|]. split; [done|].
    split; [by intros name Hne; rewrite lookup_insert_ne|].
    eexists _, _. split; [reflexivity|]. rewrite ?Nat.sub_0_r. by repeat split.
  - destruct (update_task_cases fid update w)
      as [[e He]|(pre & t & post & Hq & Hno & Ht)].
    + rewrite He. cbn. by repeat split.
    + rewrite (update_task_hit_world fid update w pre t post Hq Hno Ht). cbn.
      split; [done|]. split; [lia|]. split; [done|].
      split; [by intros name Hne; rewrite lookup_insert_ne|].
      eexists _, _. split; [reflexivity|]. rewrite ?Nat.sub_0_r. by repeat split.
  - destruct (action_cases (action c)) as [Ha|[Ha|[Ha|[Ha|(H1 & H2 & H3 & H4)]]]].
    + rewrite (control_agent_start c w Ha). cbn.
      split; [done|]. split; [lia|]. split; [done|]. split; [done|].
      eexists _, _. split; [reflexivity|]. rewrite ?Nat.sub_0_r, Ha. by repeat split.
    + destruct (decide (status (agent_state w) = "running")) as [Hst|Hst].
      * rewrite (control_agent_pause c w Ha Hst). cbn.
        split; [done|]. split; [lia|]. split; [done|]. split; [done|].
        eexists _, _. split; [reflexivity|].
        rewrite ?Nat.sub_0_r, Ha, Hst. by repeat split.
      * rewrite (control_agent_pause_rejected c w Ha Hst). cbn. by repeat split.
    + destruct (decide (status (agent_state w) = "paused")) as [Hst|Hst].
      * rewrite (control_agent_resume c w Ha Hst). cbn.
        split; [done|]. split; [lia|]. split; [done|]. split; [done|].
        eexists _, _. split; [reflexivity|].
        rewrite ?Nat.sub_0_r, Ha, Hst. by repeat split.
      * rewrite (control_agent_resume_rejected c w Ha Hst). cbn. by repeat split.
    + rewrite (control_agent_stop_run c w Ha). cbn.
      split; [done|]. split; [lia|]. split; [done|]. split; [done|].
      eexists _, _. split; [reflexivity|]. rewrite ?Nat.sub_0_r, Ha. by repeat split.
    + rewrite (control_agent_unknown_action c w H1 H2 H3 H4). cbn. by repeat split.
Qed.

Lemma serve_cons_fst r reqs (w : world) :
  (serve (r :: reqs) w).1 = (serve reqs (handle r w).1).1.
Proof.
  cbn [serve]. destruct (handle r w) as [w1 resp]. cbn [fst].
  by destruct (serve reqs w1).
Qed.

Lemma transition_table_assigned a s s' :
  transition_table a s = Some s' → s' ∈ assigned_statuses.
Proof.
  unfold transition_table, assigned_statuses.
  repeat case_match; intros [= <-]; set_solver.
Qed.

(** X4: a request that a handler ends by raising an [HTTPException], or
    an [AttributeError] or [TypeError] on a malformed document, has changed
    neither the agent state, audit log included, nor any file.  These are
    the failures of the handlers while every file is read and written
    without error; a failing file system is not covered. *)
Theorem failed_request_changes_nothing (r : request) (w : world) (e : exn) :
  (handle r w).2 = Raise e →
  agent_state (handle r w).1 = agent_state w ∧ files (handle r w).1 = files w.
Proof.
  intros Hfail. pose proof (handle_outcome r w) as (_ & _ & _ & _ & Hres).
  by rewrite Hfail in Hres.
Qed.

Lemma failed_request_changes_nothing_witness :
  let r := PatchTask "F3" (mkTaskUpdate "done") in
  agent_state (handle r example_queue_world).1 = agent_state example_queue_world ∧
  files (handle r example_queue_world).1 = files example_queue_world.
Proof.
  intros r.
  apply (failed_request_changes_nothing r example_queue_world
           (HTTPException 404 "Task not found")).
  reflexivity.
Defined.

(** X5: a request that succeeds appends exactly one audit entry, under the
    action name of the request and stamped with the last clock reading the
    handler took; the entries before it keep their order and the log is
    cut to its last 100. *)
Theorem successful_request_audited_once (r : request) (w : world) (resp : dict) :
  (handle r w).2 = Ok resp →
  ∃ entry,
    audit_log (agent_state (handle r w).1)
      = py_last 100 (audit_log (agent_state w) ++ [entry]) ∧
    action_of entry = request_action r ∧
    timestamp entry = clock w (ticks (handle r w).1 - 1).
Proof.
  intros Hok. pose proof (handle_outcome r w) as (_ & _ & _ & _ & Hres).
  rewrite Hok in Hres. destruct Hres as (entry & a & Ha & Hlog & Hts & Hact & _).
  exists entry. rewrite Ha, append_audit_log, Hlog. done.
Qed.

Lemma successful_request_audited_once_witness :
  let r := PostTask (TaskCreate_default "F1") in
  ∃ entry,
    audit_log (agent_state (handle r example_world).1) = [entry] ∧
    action_of entry = "task_created" ∧
    timestamp entry = "t1".
Proof.
  intros r.
  destruct (successful_request_audited_once r example_world
              [("status", JStr "created");
               ("task", JObj (new_task_of (TaskCreate_default "F1") "t0"))]
              eq_refl)
    as (entry & Hlog & Hact & Hts).
  exists entry. split; [exact Hlog|]. split; [exact Hact | exact Hts].
Defined.

(** X6: whatever requests are served, in whatever order, an audit log of
    at most 100 entries stays at most 100 entries long. *)
Theorem serve_audit_log_bounded (reqs : list request) (w : world) :
  length (audit_log (agent_state w)) ≤ 100 →
  length (audit_log (agent_state (serve reqs w).1)) ≤ 100.
Proof.
  revert w. induction reqs as [|r reqs IH]; intros w Hw; [done|].
  rewrite serve_cons_fst. apply IH.
  pose proof (handle_outcome r w) as (_ & _ & _ & _ & Hres).
  destruct (handle r w).2 as [e|resp].
  - destruct Hres as [-> _]. done.
  - destruct Hres as (entry & a & -> & _).
    rewrite append_audit_log, py_last_length. lia.
Qed.

Lemma serve_audit_log_bounded_witness :
  length (audit_log (agent_state
    (serve [PostControl (mkAgentControl "start" None None);
            PostTask (TaskCreate_default "F1");
            PostControl (mkAgentControl "pause" None None)] example_world).1)) ≤ 100.
Proof.
  apply serve_audit_log_bounded. cbn. lia.
Defined.

(** X7: no handler assigns a status other than [idle], [running] and
    [paused]: from one of them, every sequence of requests ends in one of
    them.  The status [error] is never set. *)
Theorem serve_keeps_assigned_status (reqs : list request) (w : world) :
  status (agent_state w) ∈ assigned_statuses →
  status (agent_state (serve reqs w).1) ∈ assigned_statuses.
Proof.
  revert w. induction reqs as [|r reqs IH]; intros w Hw; [done|].
  rewrite serve_cons_fst. apply IH.
  pose proof (handle_outcome r w) as (_ & _ & _ & _ & Hres).
  destruct (handle r w).2 as [e|resp].
  - destruct Hres as [-> _]. done.
  - destruct Hres as (entry & a & -> & _ & _ & _ & Hr).
    change (status (append_audit entry a)) with (status a).
    destruct r as [task|fid update|c].
    + destruct Hr as [-> _]. done.
    + destruct Hr as [-> _]. done.
    + destruct Hr as [_ Ht]. by eapply transition_table_assigned.
Qed.

Lemma serve_keeps_assigned_status_witness :
  status (agent_state
    (serve [PostControl (mkAgentControl "start" None None);
            PostControl (mkAgentControl "resume" None None);
            PostControl (mkAgentControl "pause" None None)] example_world).1)
  ∈ assigned_statuses.
Proof.
  apply serve_keeps_assigned_status. cbn. set_solver.
Defined.

(** X8: the two kinds of request keep to their own state.  A task request
    changes neither status, role, feature nor start time of the agent; a
    control request changes no file. *)
Theorem requests_keep_to_their_state (r : request) (w : world) :
  let w' := (handle r w).1 in
  match r with
  | PostControl _ => files w' = files w
  | _ =>
      status (agent_state w') = status (agent_state w) ∧
      current_role (agent_state w') = current_role (agent_state w) ∧
      current_feature (agent_state w') = current_feature (agent_state w) ∧
      started_at (agent_state w') = started_at (agent_state w)
  end.
Proof.
  pose proof (handle_outcome r w) as (_ & _ & _ & _ & Hres). cbv zeta.
  destruct (handle r w).2 as [e|resp].
  - destruct Hres as [Ha Hf]. rewrite Ha. by destruct r.
  - destruct Hres as (entry & a & Ha & _ & _ & _ & Hr). rewrite Ha.
    destruct r; [exact Hr | exact Hr | by destruct Hr].
Qed.

(** X9: the queue file is the only file a request writes: every other
    file, the feature catalog among them, is after any sequence of requests
    what it was before. *)
Theorem serve_writes_queue_file_only
    (reqs : list request) (w : world) (name : string) :
  name ≠ queue_file →
  files (serve reqs w).1 !! name = files w !! name.
Proof.
  intros Hne. revert w. induction reqs as [|r reqs IH]; intros w; [done|].
  rewrite serve_cons_fst, IH.
  pose proof (handle_outcome r w) as (_ & _ & _ & Hfiles & _).
  by apply Hfiles.
Qed.

Lemma serve_writes_queue_file_only_witness :
  files (serve [PostTask (TaskCreate_default "F1");
                PatchTask "F1" (mkTaskUpdate "done")] example_world).1
    !! features_file
  = files example_world !! features_file.
Proof.
  apply serve_writes_queue_file_only. done.
Defined.

End Requests.

(** ** The queue document at its edges *)

Section QueueEdges.

Lemma dict_lookup_set_ne k k' v (d : dict) :
  k' ≠ k → dict_lookup k' (dict_set k v d) = dict_lookup k' d.
Proof.
  intros Hne. induction d as [|[k0 v0] d IH]; cbn.
  - by apply String.eqb_neq in Hne as ->.
  - destruct (String.eqb_spec k k0) as [<-|Hk]; cbn.
    + by apply String.eqb_neq in Hne as ->.
    + by rewrite IH.
Qed.

Lemma dict_keys_set k v (d : dict) :
  dict_keys (dict_set k v d)
    = dict_keys d ++ (if dict_contains k d then [] else [k]).
Proof.
  unfold dict_keys, dict_contains. induction d as [|[k0 v0] d IH]; cbn; [done|].
  destruct (String.eqb k k0); cbn; [by rewrite app_nil_r|].
  by rewrite IH.
Qed.

Lemma dict_contains_set_ne k k' v (d : dict) :
  k' ≠ k → dict_contains k' (dict_set k v d) = dict_contains k' d.
Proof. intros Hne. unfold dict_contains. by rewrite dict_lookup_set_ne. Qed.

(** X10: with no catalog file, a catalog without a [features] field or an
    empty feature list, [create_task] raises the 404 of a missing feature
    for every feature id and changes nothing. *)
Theorem create_task_without_catalog (task : TaskCreate) (w : world) :
  dict_get "features" (JArr []) (document (files w) features_file) = JArr [] →
  create_task task w = (w, Raise (HTTPException 404 "Feature not found")).
Proof.
  intros Hcat. apply (create_task_missing_feature task w []); [|done].
  unfold feature_ids. by rewrite Hcat.
Qed.

Lemma create_task_without_catalog_witness :
  let w := mkWorld initial_agent_state ∅ example_clock 0 in
  create_task (TaskCreate_default "F1") w
    = (w, Raise (HTTPException 404 "Feature not found")).
Proof.
  intros w. apply create_task_without_catalog. reflexivity.
Defined.

(** X11: when the [queue] field of the document is there but is not a
    list, [create_task] for a catalog feature raises [AttributeError] at
    the append: the clock has been read once, nothing is saved and nothing
    is audited. *)
Theorem create_task_queue_not_a_list
    (task : TaskCreate) (w : world) (ids : list json) (v : json) :
  feature_ids (document (files w) features_file) = Ok ids →
  py_in_str (feature_id task) ids = true →
  dict_lookup "queue" (document (files w) queue_file) = Some v →
  (∀ items, v ≠ JArr items) →
  create_task task w
    = (mkWorld (agent_state w) (files w) (clock w) (S (ticks w)),
       Raise AttributeError).
Proof.
  intros Hids Hin Hq Hv. rewrite create_task_run. cbv zeta.
  rewrite Hids, Hin. unfold dict_get. rewrite Hq.
  destruct v; try done. by destruct (Hv items).
Qed.

Lemma create_task_queue_not_a_list_witness :
  let w := mkWorld initial_agent_state
             (<[queue_file := [("queue", JObj [])]]> example_files)
             example_clock 0 in
  create_task (TaskCreate_default "F1") w
    = (mkWorld initial_agent_state (files w) example_clock 1,
       Raise AttributeError).
Proof.
  intros w.
  apply (create_task_queue_not_a_list (TaskCreate_default "F1") w
           [JStr "F1"; JStr "F2"] (JObj [])); done.
Defined.

(** X12: [update_task] changes the [status] and [updated_at] of the task it
    finds and nothing else: every other field of the task has the value it
    had, the keys keep their order, with [status] and [updated_at] added at
    the end only where they were missing, and the queue keeps its length. *)
Theorem update_task_keeps_other_fields
    (fid : string) (update : TaskUpdate) (w : world)
    (pre : list json) (t : dict) (post : list json) :
  dict_get "queue" (JArr []) (document (files w) queue_file)
    = JArr (pre ++ JObj t :: post) →
  no_task_for fid pre = true →
  py_eq_str fid (dict_get "feature_id" JNull t) = true →
  ∃ t', persisted_queue (update_task fid update w).1 = pre ++ JObj t' :: post ∧
        (∀ k, k ≠ "status" → k ≠ "updated_at" →
           dict_lookup k t' = dict_lookup k t) ∧
        dict_lookup "status" t' = Some (JStr (new_status update)) ∧
        dict_lookup "updated_at" t' = Some (JStr (clock w (ticks w))) ∧
        dict_keys t'
          = dict_keys t
            ++ filter (λ k, dict_contains k t = false) ["status"; "updated_at"] ∧
        length (persisted_queue (update_task fid update w).1)
          = length (persisted_queue w).
Proof.
  intros Hq Hno Hmatch.
  destruct (update_task_hit fid update w pre t post Hq Hno Hmatch)
    as (w' & Hrun & _ & Hpq).
  rewrite Hrun. cbn [fst]. eexists. split; [exact Hpq|].
  split; [|split; [|split; [|split]]].
  - intros k Hs Hu. by rewrite !dict_lookup_set_ne.
  - by rewrite dict_lookup_set_ne, dict_lookup_set_eq.
  - by rewrite dict_lookup_set_eq.
  - rewrite !dict_keys_set, dict_contains_set_ne by done.
    rewrite <- app_assoc. f_equal.
    rewrite filter_cons, filter_cons, filter_nil.
    destruct (dict_contains "status" t), (dict_contains "updated_at" t); done.
  - rewrite Hpq. unfold persisted_queue. rewrite Hq.
    rewrite !length_app. done.
Qed.

Lemma update_task_keeps_other_fields_witness :
  ∃ t', persisted_queue
          (update_task "F2" (mkTaskUpdate "done") example_queue_world).1
        = [example_task "F1" "pending"; JObj t'; example_task "F2" "blocked"] ∧
        dict_lookup "created_at" t' = Some (JStr "t0") ∧
        dict_keys t'
        = ["feature_id"; "status"; "created_at"; "priority"; "updated_at"].
Proof.
  destruct (update_task_keeps_other_fields "F2" (mkTaskUpdate "done")
              example_queue_world [example_task "F1" "pending"]
              [("feature_id", JStr "F2"); ("status", JStr "pending");
               ("created_at", JStr "t0"); ("priority", JStr "normal")]
              [example_task "F2" "blocked"] eq_refl eq_refl eq_refl)
    as (t' & Hpq & Hother & _ & _ & Hkeys & _).
  exists t'. split; [exact Hpq|]. split.
  - by rewrite Hother.
  - exact Hkeys.
Defined.

Lemma update_loop_bad_element fid update queue items i pre bad post (w : world) :
  no_task_for fid pre = true → (∀ d, bad ≠ JObj d) →
  update_loop fid update queue items i (pre ++ bad :: post) w
    = (w, Raise AttributeError).
Proof.
  intros Hno Hbad. revert i. induction pre as [|p pre IH]; intros i.
  - cbn. destruct bad; try done. by destruct (Hbad fields).
  - cbn in Hno. apply andb_prop in Hno as [Hp Hpre].
    destruct p as [| | | | |d]; try done.
    cbn [app update_loop]. apply negb_true_iff in Hp. rewrite Hp. by apply IH.
Qed.

(** X13: a queue that is not a list of task objects makes [update_task]
    raise a Python error instead of a 404, and nothing is changed: an
    element that is not an object, met before any match, raises
    [AttributeError]; a [queue] field that is [null], a boolean or a number
    raises [TypeError]. *)
Theorem update_task_malformed_queue
    (fid : string) (update : TaskUpdate) (w : world) :
  let v := dict_get "queue" (JArr []) (document (files w) queue_file) in
  (∀ pre bad post,
     v = JArr (pre ++ bad :: post) → no_task_for fid pre = true →
     (∀ d, bad ≠ JObj d) →
     update_task fid update w = (w, Raise AttributeError)) ∧
  (v = JNull ∨ (∃ b, v = JBool b) ∨ (∃ n, v = JInt n) →
     update_task fid update w = (w, Raise TypeError)).
Proof.
  intros v. split.
  - intros pre bad post Hv Hno Hbad.
    unfold update_task, bind at 1, load_json_file. unfold bind at 1, lift.
    fold v. rewrite Hv. cbn [py_iter]. by apply update_loop_bad_element.
  - intros Hv. unfold update_task, bind at 1, load_json_file.
    unfold bind at 1, lift. fold v.
    destruct Hv as [->|[[b ->]|[n ->]]]; reflexivity.
Qed.

Lemma update_task_malformed_queue_witness :
  let w1 := mkWorld initial_agent_state
              {[ queue_file := [("queue", JArr [example_task "F1" "pending";
                                                JStr "F2"])] ]}
              example_clock 0 in
  let w2 := mkWorld initial_agent_state {[ queue_file := [("queue", JNull)] ]}
              example_clock 0 in
  update_task "F2" (mkTaskUpdate "done") w1 = (w1, Raise AttributeError) ∧
  update_task "F2" (mkTaskUpdate "done") w2 = (w2, Raise TypeError).
Proof.
  intros w1 w2. split.
  - destruct (update_task_malformed_queue "F2" (mkTaskUpdate "done") w1) as [Hbad _].
    by apply (Hbad [example_task "F1" "pending"] (JStr "F2") []).
  - destruct (update_task_malformed_queue "F2" (mkTaskUpdate "done") w2) as [_ Hnull].
    apply Hnull. by left.
Defined.

Lemma create_task_then (task : TaskCreate) (w : world) (ids items : list json) :
  feature_ids (document (files w) features_file) = Ok ids →
  py_in_str (feature_id task) ids = true →
  dict_get "queue" (JArr []) (document (files w) queue_file) = JArr items →
  let new_task := new_task_of task (clock w (ticks w)) in
  ∃ w', create_task task w
          = (w', Ok [("status", JStr "created"); ("task", JObj new_task)]) ∧
        feature_ids (document (files w') features_file) = Ok ids ∧
        dict_get "queue" (JArr []) (document (files w') queue_file)
          = JArr (items ++ [JObj new_task]) ∧
        clock w' = clock w ∧ ticks w' = S (S (ticks w)).
Proof.
  intros Hids Hin Hq new_task.
  destruct (create_task_appends task w ids items Hids Hin Hq)
    as (w' & Hrun & Hfiles & _ & Hclk & Hticks).
  exists w'. split; [exact Hrun|]. split; [|split; [|done]].
  - unfold document. rewrite Hfiles, lookup_insert_ne; [exact Hids | done].
  - unfold document. rewrite Hfiles, lookup_insert_eq. cbn.
    apply dict_get_set_eq.
Qed.

Lemma py_eq_str_feature_id (task : TaskCreate) now :
  py_eq_str (feature_id task)
    (dict_get "feature_id" JNull (new_task_of task now)) = true.
Proof. cbn. apply String.eqb_refl. Qed.

(** X14: a task that has just been created can be updated.  On a queue
    without a task for the feature, [create_task] followed by [update_task]
    for the same feature id both succeed, and [get_tasks] then returns the
    queue with the created task last, carrying the new status, the creation
    time and the update time. *)
Theorem create_then_update_task
    (task : TaskCreate) (update : TaskUpdate) (w : world) (ids items : list json) :
  feature_ids (document (files w) features_file) = Ok ids →
  py_in_str (feature_id task) ids = true →
  dict_get "queue" (JArr []) (document (files w) queue_file) = JArr items →
  no_task_for (feature_id task) items = true →
  let w1 := (create_task task w).1 in
  let w2 := (update_task (feature_id task) update w1).1 in
  let final :=
    [("feature_id", JStr (feature_id task));
     ("status", JStr (new_status update));
     ("created_at", JStr (clock w (ticks w)));
     ("priority", opt_json (priority task));
     ("updated_at", JStr (clock w (S (S (ticks w)))))] in
  succeeded (create_task task w).2 = true ∧
  (update_task (feature_id task) update w1).2
    = Ok [("status", JStr "updated"); ("task", JObj final)] ∧
  ∃ doc, get_tasks w2 = (w2, Ok doc) ∧
         dict_get "queue" (JArr []) doc = JArr (items ++ [JObj final]).
Proof.
  intros Hids Hin Hq Hno w1 w2 final.
  destruct (create_task_then task w ids items Hids Hin Hq)
    as (w' & Hrun & _ & Hq' & Hclk & Hticks).
  subst w2 w1. rewrite Hrun. cbn [fst snd succeeded].
  pose proof (update_task_hit_world (feature_id task) update w' items
                (new_task_of task (clock w (ticks w))) [] Hq' Hno
                (py_eq_str_feature_id task _)) as Hupd.
  cbv zeta in Hupd. rewrite Hupd. cbn [fst snd].
  rewrite Hclk, Hticks. cbn [new_task_of dict_set String.eqb Ascii.eqb Bool.eqb].
  split; [done|]. split; [done|].
  eexists. split; [reflexivity|].
  unfold document; cbn. rewrite lookup_insert_eq. cbn.
  by rewrite dict_get_set_eq.
Qed.

Lemma create_then_update_task_witness :
  let task := TaskCreate_default "F1" in
  let w1 := (create_task task example_world).1 in
  (update_task "F1" (mkTaskUpdate "in_progress") w1).2
    = Ok [("status", JStr "updated");
          ("task", JObj [("feature_id", JStr "F1");
                         ("status", JStr "in_progress");
                         ("created_at", JStr "t0");
                         ("priority", JStr "normal");
                         ("updated_at", JStr "t2")])].
Proof.
  intros task w1.
  destruct (create_then_update_task task (mkTaskUpdate "in_progress") example_world
              [JStr "F1"; JStr "F2"] [] eq_refl eq_refl eq_refl eq_refl)
    as (_ & Hupd & _).
  exact Hupd.
Defined.

(** X15: feature ids are not unique in the queue.  [create_task] twice for
    the same feature gives two tasks, and [update_task] then changes the
    first of them and leaves the second as created. *)
Theorem duplicate_tasks_first_updated
    (task : TaskCreate) (update : TaskUpdate) (w : world) (ids items : list json) :
  feature_ids (document (files w) features_file) = Ok ids →
  py_in_str (feature_id task) ids = true →
  dict_get "queue" (JArr []) (document (files w) queue_file) = JArr items →
  no_task_for (feature_id task) items = true →
  let served := serve [PostTask task; PostTask task;
                       PatchTask (feature_id task) update] w in
  Forall (λ r, succeeded r = true) served.2 ∧
  persisted_queue served.1
    = items ++
      [JObj (dict_set "updated_at" (JStr (clock w (4 + ticks w)))
               (dict_set "status" (JStr (new_status update))
                  (new_task_of task (clock w (ticks w)))));
       JObj (new_task_of task (clock w (2 + ticks w)))].
Proof.
  intros Hids Hin Hq Hno served.
  destruct (create_task_then task w ids items Hids Hin Hq)
    as (w1 & Hrun1 & Hids1 & Hq1 & Hclk1 & Hticks1).
  destruct (create_task_then task w1 ids _ Hids1 Hin Hq1)
    as (w2 & Hrun2 & _ & Hq2 & Hclk2 & Hticks2).
  rewrite <- app_assoc in Hq2. cbn [app] in Hq2.
  pose proof (update_task_hit_world (feature_id task) update w2 items
                (new_task_of task (clock w (ticks w)))
                [JObj (new_task_of task (clock w1 (ticks w1)))] Hq2 Hno
                (py_eq_str_feature_id task _)) as Hupd.
  cbv zeta in Hupd.
  subst served. cbn [serve handle]. rewrite Hrun1, Hrun2, Hupd. cbn [fst snd].
  split; [by repeat constructor|].
  unfold persisted_queue, document; cbn. rewrite lookup_insert_eq. cbn.
  rewrite dict_get_set_eq. by rewrite Hclk2, Hticks2, Hclk1, Hticks1.
Qed.

Lemma duplicate_tasks_first_updated_witness :
  let task := TaskCreate_default "F1" in
  persisted_queue
    (serve [PostTask task; PostTask task; PatchTask "F1" (mkTaskUpdate "done")]
       example_world).1
  = [JObj [("feature_id", JStr "F1"); ("status", JStr "done");
           ("created_at", JStr "t0"); ("priority", JStr "normal");
           ("updated_at", JStr "t4")];
     JObj [("feature_id", JStr "F1"); ("status", JStr "pending");
           ("created_at", JStr "t2"); ("priority", JStr "normal")]].
Proof.
  intros task.
  destruct (duplicate_tasks_first_updated task (mkTaskUpdate "done") example_world
              [JStr "F1"; JStr "F2"] [] eq_refl eq_refl eq_refl eq_refl)
    as [_ Hq].
  exact Hq.
Defined.

End QueueEdges.

(** ** Lines the generator never yields *)

Section StreamGaps.

Import EventStream.

Implicit Types (st : stream) (g : generator).

Lemma resume_yields st :
  caught_up st → cursor (gen st) < length (log_buffer st) →
  ∃ line,
    log_buffer st !! cursor (gen st) = Some line ∧
    step Resume st
      = Ok (mkStream (log_buffer st)
              (mkGenerator (last_idx (gen st))
                 (Yielded (cursor (gen st)) (length (log_buffer st))))
              (sent st ++ [frame line])).
Proof.
  intros [Hsent Hpc] Hlt.
  destruct (lookup_lt_is_Some_2 _ _ Hlt) as [line Hline].
  exists line. split; [done|].
  cbn [step]. unfold resume, yield_at. unfold cursor in *.
  destruct (pc (gen st)) as [|i hi].
  - rewrite decide_True by done. by rewrite Hline.
  - destruct Hpc as [_ ->]. rewrite decide_True by done. by rewrite Hline.
Qed.

Lemma resumes_yield st j :
  caught_up st → cursor (gen st) + S j ≤ length (log_buffer st) →
  ∃ st', run (repeat Resume (S j)) st = Ok st' ∧
         log_buffer st' = log_buffer st ∧
         sent st' = frame <$> take (cursor (gen st) + S j) (log_buffer st) ∧
         pc (gen st') = Yielded (cursor (gen st) + j) (length (log_buffer st)).
Proof.
  revert st. induction j as [|j IH]; intros st Hst Hle.
  - destruct (resume_yields st Hst ltac:(lia)) as (line & Hline & Hstep).
    eexists. cbn [repeat run]. rewrite Hstep. split; [done|]. cbn.
    split; [done|]. split; [|by rewrite Nat.add_0_r].
    destruct Hst as [-> _].
    by rewrite Nat.add_1_r, (take_S_r _ _ _ Hline), fmap_app.
  - destruct (resume_yields st Hst ltac:(lia)) as (line & Hline & Hstep).
    destruct Hst as [Hsent Hpc].
    pose proof (caught_up_yield st (cursor (gen st)) line Hsent Hline) as Hst1.
    destruct (IH _ Hst1 ltac:(cbn; lia)) as (st' & Hrun & Hbuf & Hsent' & Hpc').
    exists st'. change (repeat Resume (S (S j))) with (Resume :: repeat Resume (S j)).
    cbn [run]. rewrite Hstep. split; [done|]. cbn in *.
    split; [done|]. split.
    + rewrite Hsent'. f_equal. f_equal. lia.
    + rewrite Hpc'. f_equal. lia.
Qed.

Lemma step_behind skipped out e st st2 st2' :
  behind skipped out st st2 → step e st2 = Ok st2' →
  ∃ st', step e st = Ok st' ∧ behind skipped out st' st2'.
Proof.
  intros (Hbuf & Hgen & Hsent) Hstep.
  destruct st as [buf g o], st2 as [buf2 g2 o2]. cbn in *. subst buf g o.
  destruct e as [line|]; cbn [step] in *; cbn [log_buffer gen sent] in *.
  - injection Hstep as <-. eexists. split; [done|].
    split; [|done]. unfold publish; cbn. by rewrite <- app_assoc.
  - unfold resume, yield_at in *. destruct g2 as [last2 [|i hi]]; cbn in *.
    + rewrite length_app.
      destruct (decide (last2 < length buf2)) as [Hlt|Hge].
      * rewrite decide_True by lia.
        rewrite lookup_app_r by lia.
        replace (length skipped + last2 - length skipped) with last2 by lia.
        destruct (buf2 !! last2) as [line|]; [|done].
        injection Hstep as <-. eexists. split; [done|].
        split; [done|]. split; [done|]. cbn. by rewrite app_assoc.
      * rewrite decide_False by lia. injection Hstep as <-.
        eexists. split; [done|]. split; [done|]. split; [done|].
        cbn. by rewrite app_assoc.
    + destruct (decide (S i < hi)) as [Hlt|Hge].
      * rewrite decide_True by lia.
        replace (S (length skipped + i)) with (length skipped + S i) by lia.
        rewrite lookup_app_r by lia.
        replace (length skipped + S i - length skipped) with (S i) by lia.
        destruct (buf2 !! S i) as [line|]; [|done].
        injection Hstep as <-. eexists. split; [done|].
        split; [done|]. split; [done|]. cbn. by rewrite app_assoc.
      * rewrite decide_False by lia. injection Hstep as <-.
        eexists. split; [done|]. split; [done|]. split.
        -- cbn. unfold shift_gen; cbn. by rewrite length_app.
        -- cbn. by rewrite app_assoc.
Qed.

Lemma run_behind skipped out sched st st2 st2' :
  behind skipped out st st2 → run sched st2 = Ok st2' →
  ∃ st', run sched st = Ok st' ∧ behind skipped out st' st2'.
Proof.
  revert st st2. induction sched as [|e sched IH]; intros st st2 Hb Hrun.
  - injection Hrun as <-. by exists st.
  - cbn [run] in *. destruct (step e st2) as [x|st2a] eqn:Hstep; [done|].
    destruct (step_behind skipped out e st st2 st2a Hb Hstep) as (sta & Hstepa & Hba).
    rewrite Hstepa. by eapply IH.
Qed.

Lemma run_app sched1 sched2 st st1 :
  run sched1 st = Ok st1 → run (sched1 ++ sched2) st = run sched2 st1.
Proof.
  revert st. induction sched1 as [|e sched1 IH]; intros st Hrun; cbn in *.
  - by injection Hrun as <-.
  - destruct (step e st) as [x|st']; [done|]. by apply IH.
Qed.

(** X16: the generator [event_generator], taken by itself and iterated
    (which [stream_logs] does not do, see C1), steps over a line that is
    appended to [log_buffer] while it is suspended at the last [yield] of a
    batch.  Called on a non-empty buffer and resumed until it has yielded
    all of it, when a line is then appended before it is resumed again, it
    yields afterwards, whatever happens, only lines appended after that
    line, in order and each at most once. *)
Theorem line_published_at_last_yield_is_lost
    (backlog : list string) (line : string) (sched : list event) :
  backlog ≠ [] →
  ∃ st d,
    run (repeat Resume (length backlog) ++ Publish line :: Resume :: sched)
        (iterating backlog) = Ok st ∧
    log_buffer st = backlog ++ line :: published sched ∧
    sent st = frame <$> (backlog ++ d) ∧
    d `sublist_of` published sched.
Proof.
  intros Hne.
  destruct (length backlog) as [|j] eqn:Hlen; [by destruct backlog|].
  destruct (resumes_yield (iterating backlog) j (iterating_caught_up backlog))
    as (sta & Hruna & Hbufa & Hsenta & Hpca); [cbn; lia|].
  cbn in Hbufa, Hsenta, Hpca. rewrite Hlen in Hpca.
  rewrite take_ge in Hsenta by lia.
  rewrite (run_app _ _ _ _ Hruna). cbn [run step].
  unfold resume. cbn [gen log_buffer sent]. rewrite Hpca.
  rewrite decide_False by lia. cbn [option_list]. rewrite app_nil_r.
  destruct (run_served sched _ _ (iterating_served []))
    as (st2 & d & Hrun2 & (Hsent2 & Hsub2 & _) & Hbuf2).
  cbn in Hbuf2.
  destruct (run_behind (publish line (log_buffer sta)) (sent sta) sched
              (mkStream (publish line (log_buffer sta))
                 (mkGenerator (length (publish line (log_buffer sta))) LoopTop)
                 (sent sta))
              (iterating []) st2) as (st & Hrun & Hbuf & _ & Hsent).
  { split; [|split]; cbn.
    - by rewrite app_nil_r.
    - unfold shift_gen; cbn. by rewrite Nat.add_0_r.
    - by rewrite app_nil_r. }
  { exact Hrun2. }
  exists st, d. split; [exact Hrun|]. split; [|split].
  - rewrite Hbuf, Hbuf2, Hbufa. unfold publish. by rewrite <- app_assoc.
  - rewrite Hsent, Hsenta, Hsent2. by rewrite fmap_app.
  - etrans; [exact Hsub2|]. rewrite <- Hbuf2. apply sublist_take.
Qed.

Lemma line_published_at_last_yield_is_lost_witness :
  ∃ st d,
    run ([Resume; Resume] ++ Publish "c" :: Resume ::
         [Resume; Publish "d"; Resume; Resume])
        (iterating ["a"; "b"]) = Ok st ∧
    log_buffer st = ["a"; "b"] ++ "c" :: ["d"] ∧
    sent st = frame <$> (["a"; "b"] ++ d) ∧
    d `sublist_of` ["d"].
Proof.
  apply (line_published_at_last_yield_is_lost ["a"; "b"] "c"
           [Resume; Publish "d"; Resume; Resume]).
  done.
Defined.

End StreamGaps.

(** ** Recent logs *)

Section RecentLogs.

Lemma py_tail_positive {A} (limit : Z) (l : list A) :
  (0 < limit)%Z → py_tail limit l = py_last (Z.to_nat limit) l.
Proof. intros Hpos. unfold py_tail, py_last. by rewrite decide_True. Qed.

Lemma py_tail_zero {A} (l : list A) : py_tail 0 l = l.
Proof. done. Qed.

Lemma py_tail_sublist {A} (limit : Z) (l : list A) : py_tail limit l `sublist_of` l.
Proof. unfold py_tail. case_decide; apply sublist_drop. Qed.

Lemma elem_of_py_tail {A} (limit : Z) (l : list A) x : x ∈ py_tail limit l → x ∈ l.
Proof. intros Hx. eapply elem_of_sublist; [exact Hx | apply py_tail_sublist]. Qed.

Lemma elem_of_log_files (logs_dir : gmap string (list string)) name lines :
  (name, lines) ∈ log_files logs_dir ↔
  logs_dir !! name = Some lines ∧ is_log_name name = true.
Proof.
  unfold log_files. rewrite list_elem_of_filter, elem_of_map_to_list. cbn. tauto.
Qed.

Lemma elem_of_read_files (logs_dir : gmap string (list string)) name lines :
  (name, lines) ∈ read_files logs_dir →
  logs_dir !! name = Some lines ∧ is_log_name name = true.
Proof.
  unfold read_files. intros Hin.
  eapply elem_of_sublist in Hin; [|apply sublist_take].
  rewrite merge_sort_Permutation in Hin. by apply elem_of_log_files.
Qed.

(** X17: with a positive [limit], [get_logs] returns at most [limit]
    entries. *)
Theorem get_logs_at_most_limit
    (strip : string → string) (limit : Z) (logs_dir : gmap string (list string)) :
  (0 < limit)%Z →
  get_logs strip limit logs_dir = [("logs", JArr (recent_logs strip limit logs_dir))] ∧
  length (recent_logs strip limit logs_dir) ≤ Z.to_nat limit.
Proof.
  intros Hpos. split; [done|]. unfold recent_logs.
  rewrite py_tail_positive by done. rewrite py_last_length. lia.
Qed.

Lemma get_logs_at_most_limit_witness :
  length (recent_logs id 2 example_logs_dir) ≤ 2.
Proof.
  apply (get_logs_at_most_limit id 2 example_logs_dir). done.
Defined.

(** X18: a [limit] of 0 does not limit: [get_logs] then returns every line
    of every file it reads, none cut off. *)
Theorem get_logs_limit_zero_returns_all
    (strip : string → string) (logs_dir : gmap string (list string)) :
  recent_logs strip 0 logs_dir
    = (f ← read_files logs_dir; log_entry strip f.1 <$> f.2) ∧
  length (recent_logs strip 0 logs_dir)
    = sum_list (length ∘ snd <$> read_files logs_dir).
Proof.
  unfold recent_logs, collected_logs. rewrite py_tail_zero.
  split; [done|].
  induction (read_files logs_dir) as [|f fs IH]; [done|].
  csimpl. rewrite length_app, length_fmap, IH. done.
Qed.

(** X19: [get_logs] reads at most five files, all of them files of the
    directory whose name ends in [.log], and they are the ones with the
    greatest names: a [.log] file that is not read has a name no greater
    than that of any file read. *)
Theorem read_files_greatest_five (logs_dir : gmap string (list string)) :
  length (read_files logs_dir) ≤ 5 ∧
  (∀ name lines, (name, lines) ∈ read_files logs_dir →
     logs_dir !! name = Some lines ∧ is_log_name name = true) ∧
  (∀ name lines name' lines',
     (name, lines) ∈ read_files logs_dir →
     logs_dir !! name' = Some lines' → is_log_name name' = true →
     (name', lines') ∉ read_files logs_dir →
     String.le name' name).
Proof.
  split; [|split].
  - unfold read_files. rewrite length_take. lia.
  - apply elem_of_read_files.
  - intros name lines name' lines' Hread Hfile Hlog Hnot.
    pose proof (StronglySorted_merge_sort newest_first (log_files logs_dir)) as Hsorted.
    assert (Hin : (name', lines') ∈ merge_sort newest_first (log_files logs_dir)).
    { rewrite merge_sort_Permutation. by apply elem_of_log_files. }
    rewrite <- (take_drop 5 (merge_sort newest_first (log_files logs_dir)))
      in Hsorted, Hin.
    apply elem_of_app in Hin as [Hin|Hin]; [done|].
    exact (StronglySorted_app_1_elem_of _ _ _ _ _ Hsorted Hread Hin).
Qed.

Lemma read_files_greatest_five_witness :
  length (read_files example_six_logs) ≤ 5 ∧
  ("b.log", ["b"]) ∈ read_files example_six_logs ∧
  ("a.log", ["a"]) ∉ read_files example_six_logs ∧
  example_six_logs !! "b.log" = Some ["b"] ∧ is_log_name "b.log" = true ∧
  (String.le "a.log" "b.log").
Proof.
  destruct (read_files_greatest_five example_six_logs) as (Hfive & Hfiles & Hgreatest).
  assert (Hread : ("b.log", ["b"]) ∈ read_files example_six_logs).
  { vm_compute. do 4 (apply elem_of_cons; right). apply elem_of_cons. by left. }
  assert (Hnot : ("a.log", ["a"]) ∉ read_files example_six_logs).
  { vm_compute. intros Hin.
    repeat (apply elem_of_cons in Hin as [Hin|Hin]; [discriminate Hin|]).
    by apply elem_of_nil in Hin. }
  split; [exact Hfive|]. split; [exact Hread|]. split; [exact Hnot|].
  destruct (Hfiles "b.log" ["b"] Hread) as [Hfile Hlog].
  split; [exact Hfile|]. split; [exact Hlog|].
  apply (Hgreatest "b.log" ["b"] "a.log" ["a"] Hread); [reflexivity | reflexivity | exact Hnot].
Defined.

(** X20: every entry [get_logs] returns is a line, stripped, of a file of
    the directory whose name ends in [.log], under that file's name. *)
Theorem get_logs_entries_from_log_files
    (strip : string → string) (limit : Z) (logs_dir : gmap string (list string))
    (entry : json) :
  entry ∈ recent_logs strip limit logs_dir →
  ∃ name lines line,
    logs_dir !! name = Some lines ∧ is_log_name name = true ∧
    line ∈ lines ∧
    entry = JObj [("file", JStr name); ("line", JStr (strip line))].
Proof.
  unfold recent_logs, collected_logs. intros Hin%elem_of_py_tail.
  apply list_elem_of_bind in Hin as ([name lines] & Hentry & Hread).
  apply list_elem_of_fmap in Hentry as (line & -> & Hline%elem_of_py_tail).
  apply elem_of_read_files in Hread as [Hfile Hlog].
  by exists name, lines, line.
Qed.

Lemma get_logs_entries_from_log_files_witness :
  ∃ name lines line,
    example_logs_dir !! name = Some lines ∧ is_log_name name = true ∧
    line ∈ lines ∧
    JObj [("file", JStr "a.log"); ("line", JStr "three")]
      = JObj [("file", JStr name); ("line", JStr (id line))].
Proof.
  apply (get_logs_entries_from_log_files id 2 example_logs_dir).
  vm_compute. apply elem_of_cons. right. apply elem_of_cons. by left.
Defined.

(** X21: the cut to [limit] entries keeps the end of what was collected, so
    it keeps the file read last, the one with the smallest name among those
    read: when that file has at least [limit] lines, with [limit] positive,
    [get_logs] returns the last [limit] lines of that file and no line of
    any other. *)
Theorem get_logs_returns_last_file_read
    (strip : string → string) (limit : Z) (logs_dir : gmap string (list string))
    (fs : list (string * list string)) (name : string) (lines : list string) :
  read_files logs_dir = fs ++ [(name, lines)] →
  (0 < limit)%Z → Z.to_nat limit ≤ length lines →
  recent_logs strip limit logs_dir
    = log_entry strip name <$> py_last (Z.to_nat limit) lines.
Proof.
  intros Hread Hpos Hlen. unfold recent_logs, collected_logs.
  rewrite Hread, bind_app. csimpl. rewrite app_nil_r.
  rewrite !py_tail_positive by done.
  set (before := fs ≫= _). set (last := log_entry strip name <$> _).
  assert (Hlast : length last = Z.to_nat limit).
  { subst last. rewrite length_fmap, py_last_length. lia. }
  unfold py_last at 1. rewrite length_app, Hlast.
  replace (length before + Z.to_nat limit - Z.to_nat limit) with (length before) by lia.
  by rewrite drop_app_length.
Qed.

Lemma get_logs_returns_last_file_read_witness :
  recent_logs id 2 example_logs_dir
    = [JObj [("file", JStr "a.log"); ("line", JStr "two")];
       JObj [("file", JStr "a.log"); ("line", JStr "three")]].
Proof.
  apply (get_logs_returns_last_file_read id 2 example_logs_dir
           [("b.log", ["four"; "five"])] "a.log" ["one"; "two"; "three"]).
  - by vm_compute.
  - done.
  - cbn. lia.
Defined.

End RecentLogs.
